(** * Android RMS backend (main.py): device presence and command dispatch

    A shallow embedding of the request handlers of [main.py] over an
    explicit model of the SQLite store they share.  Every handler opens a
    connection, runs a few statements and commits; here a handler is a
    function from the store before the request to the response and the
    store after it.

    Conventions
    - a [datetime] is an integer number of microseconds since the epoch,
      UTC (the resolution of Python's [datetime]);
    - a table is the list of its rows in rowid order;
    - a column declared TEXT or DATETIME holds a [string], an INTEGER
      column a [Z], a nullable column an [option];
    - Python's [json] and [datetime.strftime]/[strptime] are library code:
      they are parameters of the development. *)

From Stdlib Require Import ZArith List String Ascii Bool Lia Permutation.
From Stdlib Require Import Decimal DecimalString DecimalZ DecimalPos.
From Stdlib Require Import Sorted.
Import ListNotations.

Local Open Scope string_scope.
Local Open Scope Z_scope.
Local Open Scope list_scope.

(** ** Configuration *)

Definition DATABASE_URL : string := "rms.db".
Definition ONLINE_THRESHOLD_SECONDS : Z := 20.

(** ** Time *)

Definition datetime := Z.

(** [timedelta(seconds=s)], in microseconds. *)
Definition timedelta (seconds : Z) : Z := seconds * 1000000.

(** ** Python's [str] on integers and SQLite's reading of a text as a number *)

Definition str (n : Z) : string := NilZero.string_of_int (Z.to_int n).

(** The statement [... WHERE id IN (?, ...)] of [get_pending_commands] binds
    texts and compares them with an INTEGER column: SQLite gives the text
    NUMERIC affinity, so a text that is a decimal integer is compared as
    that integer and any other text matches no rowid. *)
Definition numeric_affinity (s : string) : option Z :=
  option_map Z.of_int (NilZero.int_of_string s).

Definition id_in (id : Z) (params : list string) : bool :=
  existsb (fun p => match numeric_affinity p with
                    | Some n => n =? id
                    | None => false
                    end) params.

(** The [sqlite3] module binds a Python [int] as a 64-bit integer and
    raises [OverflowError] for one outside that range. *)
Definition binds_as_integer (n : Z) : bool :=
  (- 2 ^ 63 <=? n) && (n <? 2 ^ 63).

Definition binds_as_optional_integer (n : option Z) : bool :=
  match n with
  | Some n => binds_as_integer n
  | None => true
  end.

(** SQLite's SQLITE_MAX_VARIABLE_NUMBER, the largest number of [?] a
    statement may have, is fixed when the library is built: 999 by default
    before version 3.32 and 32766 since. *)
Definition variable_limit_before_3_32 : Z := 999.
Definition variable_limit_since_3_32 : Z := 32766.

(** What a DATETIME column that is NOT NULL can hold.  The type name gives
    the column NUMERIC affinity: a text that reads as a number is stored
    as INTEGER or REAL, any other text as TEXT. *)
Inductive datetime_value :=
| StoredInteger (n : Z)
| StoredReal
| StoredText (s : string)
| StoredBlob.

(** ** The schema *)

(** Column [commands.status]; the handlers write no other value. *)
Inductive status := pending | sent | executed.

Definition status_eqb (a b : status) : bool :=
  match a, b with
  | pending, pending | sent, sent | executed, executed => true
  | _, _ => false
  end.

Definition status_text (s : status) : string :=
  match s with
  | pending => "pending"
  | sent => "sent"
  | executed => "executed"
  end.

(** Position in the life cycle pending < sent < executed. *)
Definition rank (s : status) : Z :=
  match s with
  | pending => 0
  | sent => 1
  | executed => 2
  end.

Record device := mk_device {
  d_id : Z;
  d_device_id : string;
  d_device_name : option string;
  d_os_version : option string;
  d_phone_number : option string;
  d_battery_level : option Z;
  d_last_seen : string;
  d_created_at : string
}.

Record command := mk_command {
  c_id : Z;
  c_device_id : string;
  c_command_type : string;
  c_command_data : string;
  c_status : status;
  c_created_at : string
}.

Record sms_log := mk_sms_log {
  s_id : Z;
  s_device_id : string;
  s_sender : string;
  s_message_body : string;
  s_received_at : string
}.

Record form_submission := mk_form_submission {
  f_id : Z;
  f_device_id : string;
  f_custom_data : string;
  f_submitted_at : string
}.

(** The five tables, and for each AUTOINCREMENT table its row of
    [sqlite_sequence] (0 before the first insertion). *)
Record database := mk_database {
  devices : list device;
  commands : list command;
  sms_logs : list sms_log;
  form_submissions : list form_submission;
  global_settings : list (string * string);
  seq_devices : Z;
  seq_commands : Z;
  seq_sms_logs : Z;
  seq_form_submissions : Z
}.

(** A fresh database file, after the CREATE TABLE IF NOT EXISTS statements. *)
Definition empty_db : database :=
  mk_database [] [] [] [] [] 0 0 0 0.

(** INTEGER PRIMARY KEY AUTOINCREMENT: one more than the largest rowid the
    table holds or ever held. *)
Definition autoincrement (seq : Z) (ids : list Z) : Z :=
  fold_right Z.max seq ids + 1.

(** ** Statements *)

Definition with_devices (l : list device) (db : database) : database :=
  mk_database l (commands db) (sms_logs db) (form_submissions db)
    (global_settings db)
    (seq_devices db) (seq_commands db) (seq_sms_logs db)
    (seq_form_submissions db).

Definition with_commands (l : list command) (db : database) : database :=
  mk_database (devices db) l (sms_logs db) (form_submissions db)
    (global_settings db)
    (seq_devices db) (seq_commands db) (seq_sms_logs db)
    (seq_form_submissions db).

Definition with_sms_logs (l : list sms_log) (db : database) : database :=
  mk_database (devices db) (commands db) l (form_submissions db)
    (global_settings db)
    (seq_devices db) (seq_commands db) (seq_sms_logs db)
    (seq_form_submissions db).

Definition with_form_submissions (l : list form_submission) (db : database)
  : database :=
  mk_database (devices db) (commands db) (sms_logs db) l
    (global_settings db)
    (seq_devices db) (seq_commands db) (seq_sms_logs db)
    (seq_form_submissions db).

Definition with_global_settings (l : list (string * string)) (db : database)
  : database :=
  mk_database (devices db) (commands db) (sms_logs db) (form_submissions db)
    l
    (seq_devices db) (seq_commands db) (seq_sms_logs db)
    (seq_form_submissions db).

(** INSERT INTO devices (device_id, device_name, os_version, phone_number,
    battery_level, last_seen, created_at) VALUES (?, ?, ?, ?, ?, ?, ?) *)
Definition insert_device (device_id : string)
    (device_name os_version phone_number : option string)
    (battery_level : option Z) (last_seen created_at : string)
    (db : database) : database :=
  let id := autoincrement (seq_devices db) (map d_id (devices db)) in
  mk_database
    (devices db ++
       [mk_device id device_id device_name os_version phone_number
          battery_level last_seen created_at])
    (commands db) (sms_logs db) (form_submissions db) (global_settings db)
    id (seq_commands db) (seq_sms_logs db) (seq_form_submissions db).

Definition set_last_seen (t : string) (d : device) : device :=
  mk_device (d_id d) (d_device_id d) (d_device_name d) (d_os_version d)
    (d_phone_number d) (d_battery_level d) t (d_created_at d).

(** UPDATE devices SET last_seen = ? WHERE device_id = ? *)
Definition update_last_seen (t device_id : string) (db : database)
  : database :=
  with_devices
    (map (fun d => if String.eqb (d_device_id d) device_id
                   then set_last_seen t d else d) (devices db)) db.

(** INSERT INTO commands (device_id, command_type, command_data)
    VALUES (?, ?, ?), with the defaults status = 'pending' and
    created_at = CURRENT_TIMESTAMP. *)
Definition insert_command (device_id command_type command_data : string)
    (current_timestamp : string) (db : database) : database :=
  let id := autoincrement (seq_commands db) (map c_id (commands db)) in
  mk_database (devices db)
    (commands db ++
       [mk_command id device_id command_type command_data pending
          current_timestamp])
    (sms_logs db) (form_submissions db) (global_settings db)
    (seq_devices db) id (seq_sms_logs db) (seq_form_submissions db).

(** INSERT INTO sms_logs (device_id, sender, message_body) VALUES (?, ?, ?) *)
Definition insert_sms_log (device_id sender message_body : string)
    (current_timestamp : string) (db : database) : database :=
  let id := autoincrement (seq_sms_logs db) (map s_id (sms_logs db)) in
  mk_database (devices db) (commands db)
    (sms_logs db ++
       [mk_sms_log id device_id sender message_body current_timestamp])
    (form_submissions db) (global_settings db)
    (seq_devices db) (seq_commands db) id (seq_form_submissions db).

(** INSERT INTO form_submissions (device_id, custom_data) VALUES (?, ?) *)
Definition insert_form_submission (device_id custom_data : string)
    (current_timestamp : string) (db : database) : database :=
  let id :=
    autoincrement (seq_form_submissions db) (map f_id (form_submissions db)) in
  mk_database (devices db) (commands db) (sms_logs db)
    (form_submissions db ++
       [mk_form_submission id device_id custom_data current_timestamp])
    (global_settings db)
    (seq_devices db) (seq_commands db) (seq_sms_logs db) id.

(** INSERT INTO global_settings (setting_key, setting_value) VALUES (?, ?)
    ON CONFLICT(setting_key) DO UPDATE SET setting_value = excluded.setting_value *)
Fixpoint upsert (key value : string) (l : list (string * string))
  : list (string * string) :=
  match l with
  | [] => [(key, value)]
  | (k, v) :: rest =>
      if String.eqb k key then (k, value) :: rest
      else (k, v) :: upsert key value rest
  end.

Definition upsert_setting (key value : string) (db : database) : database :=
  with_global_settings (upsert key value (global_settings db)) db.

Definition set_status (s : status) (c : command) : command :=
  mk_command (c_id c) (c_device_id c) (c_command_type c) (c_command_data c)
    s (c_created_at c).

(** SELECT id, command_type, command_data FROM commands
    WHERE device_id = ? AND status = ? *)
Definition select_commands (device_id : string) (s : status) (db : database)
  : list command :=
  filter (fun c => String.eqb (c_device_id c) device_id
                   && status_eqb (c_status c) s) (commands db).

(** UPDATE commands SET status = 'sent' WHERE id IN (?, ...) *)
Definition update_status_in (s : status) (params : list string)
    (db : database) : database :=
  with_commands
    (map (fun c => if id_in (c_id c) params then set_status s c else c)
       (commands db)) db.

(** UPDATE commands SET status = 'executed' WHERE id = ? *)
Definition update_status (s : status) (id : Z) (db : database) : database :=
  with_commands
    (map (fun c => if c_id c =? id then set_status s c else c)
       (commands db)) db.

(** SELECT COUNT( * ) FROM devices WHERE device_id = ? *)
Definition count_devices (device_id : string) (db : database) : Z :=
  Z.of_nat
    (List.length (filter (fun d => String.eqb (d_device_id d) device_id)
               (devices db))).

(** The four DELETE ... WHERE device_id = ? of [delete_device]. *)
Definition delete_devices_where (device_id : string) (db : database)
  : database :=
  with_devices
    (filter (fun d => negb (String.eqb (d_device_id d) device_id))
       (devices db)) db.

Definition delete_sms_logs_where (device_id : string) (db : database)
  : database :=
  with_sms_logs
    (filter (fun s => negb (String.eqb (s_device_id s) device_id))
       (sms_logs db)) db.

Definition delete_form_submissions_where (device_id : string) (db : database)
  : database :=
  with_form_submissions
    (filter (fun f => negb (String.eqb (f_device_id f) device_id))
       (form_submissions db)) db.

Definition delete_commands_where (device_id : string) (db : database)
  : database :=
  with_commands
    (filter (fun c => negb (String.eqb (c_device_id c) device_id))
       (commands db)) db.

(** DELETE FROM sms_logs WHERE id = ?, with its rowcount. *)
Definition delete_sms_log_by_id (sms_id : Z) (db : database)
  : Z * database :=
  (Z.of_nat (List.length (filter (fun s => s_id s =? sms_id) (sms_logs db))),
   with_sms_logs (filter (fun s => negb (s_id s =? sms_id)) (sms_logs db)) db).

(** SELECT * FROM devices ORDER BY created_at ASC: the texts are compared
    byte by byte; rows with equal keys keep their rowid order. *)
Fixpoint insert_by_created_at (d : device) (l : list device) : list device :=
  match l with
  | [] => [d]
  | x :: rest =>
      if String.leb (d_created_at d) (d_created_at x) then d :: x :: rest
      else x :: insert_by_created_at d rest
  end.

Definition order_by_created_at (l : list device) : list device :=
  fold_right insert_by_created_at [] l.

(** ** Requests and responses *)

(** What the caller gets: the returned body, an [HTTPException] raised by
    the handler, or an exception the handler does not catch (a 500). *)
Inductive response (A : Type) : Type :=
| Ok (body : A)
| HTTPException (status_code : Z) (detail : string)
| Unhandled.

Arguments Ok {A} body.
Arguments HTTPException {A} status_code detail.
Arguments Unhandled {A}.

(** The dictionary with keys "status" and "message" most handlers return. *)
Record ack := mk_ack { ack_status : string; ack_message : string }.

Definition success (message : string) : ack := mk_ack "success" message.

Record DeviceRegisterRequest := mk_DeviceRegisterRequest {
  r_device_id : string;
  r_device_name : option string;
  r_os_version : option string;
  r_phone_number : option string;
  r_battery_level : option Z
}.

Record DeviceResponse := mk_DeviceResponse {
  o_device_id : string;
  o_device_name : option string;
  o_os_version : option string;
  o_phone_number : option string;
  o_battery_level : option Z;
  o_is_online : bool;
  o_created_at : string
}.

(** ** A concrete codec, to run the model on examples

    The handlers below are parametric in Python's [json] and in the
    [strftime]/[strptime] pair.  This module gives one concrete choice:
    timestamps in the proleptic Gregorian calendar, printed as
    "YYYY-MM-DD HH:MM:SS" and read back from exactly that 19-character
    form (Python's [strptime] also reads one-digit fields and runs of
    blanks), and JSON documents that are a single integer in the form
    [json.dumps] writes it (Python's [json.loads] reads every JSON
    document).  The examples stay where both agree. *)

Module Utc.

Definition days_from_civil (y m d : Z) : Z :=
  let y' := if m <=? 2 then y - 1 else y in
  let era := y' / 400 in
  let yoe := y' - era * 400 in
  let mp := if m >? 2 then m - 3 else m + 9 in
  let doy := (153 * mp + 2) / 5 + d - 1 in
  let doe := yoe * 365 + yoe / 4 - yoe / 100 + doy in
  era * 146097 + doe - 719468.

Definition civil_from_days (z : Z) : Z * Z * Z :=
  let z := z + 719468 in
  let era := z / 146097 in
  let doe := z - era * 146097 in
  let yoe := (doe - doe / 1460 + doe / 36524 - doe / 146096) / 365 in
  let doy := doe - (365 * yoe + yoe / 4 - yoe / 100) in
  let mp := (5 * doy + 2) / 153 in
  let d := doy - (153 * mp + 2) / 5 + 1 in
  let m := if mp <? 10 then mp + 3 else mp - 9 in
  let y := yoe + era * 400 in
  ((if m <=? 2 then y + 1 else y), m, d).

Definition is_leap (y : Z) : bool :=
  (y mod 4 =? 0) && (negb (y mod 100 =? 0) || (y mod 400 =? 0)).

Definition days_in_month (y m : Z) : Z :=
  if m =? 2 then (if is_leap y then 29 else 28)
  else if (m =? 4) || (m =? 6) || (m =? 9) || (m =? 11) then 30
  else 31.

Definition digit (n : Z) : ascii := ascii_of_N (Z.to_N (48 + n mod 10)).

Definition pad2 (n : Z) : string :=
  String (digit (n / 10)) (String (digit n) "").

Definition pad4 (n : Z) : string :=
  String (digit (n / 1000)) (String (digit (n / 100)) (pad2 n)).

Definition strftime (t : datetime) : string :=
  let s := t / 1000000 in
  let '(y, m, d) := civil_from_days (s / 86400) in
  let r := s mod 86400 in
  String.concat ""
    [pad4 y; "-"; pad2 m; "-"; pad2 d; " ";
     pad2 (r / 3600); ":"; pad2 (r mod 3600 / 60); ":"; pad2 (r mod 60)].

Definition digit_value (a : ascii) : option Z :=
  let n := Z.of_N (N_of_ascii a) in
  if (48 <=? n) && (n <=? 57) then Some (n - 48) else None.

Fixpoint number (acc : Z) (l : list ascii) : option Z :=
  match l with
  | [] => Some acc
  | a :: rest =>
      match digit_value a with
      | Some v => number (10 * acc + v) rest
      | None => None
      end
  end.

Definition strptime (s : string) : option datetime :=
  match list_ascii_of_string s with
  | [y1; y2; y3; y4; a; m1; m2; b; d1; d2; c; h1; h2; e; n1; n2; f; s1; s2] =>
      if Ascii.eqb a "-" && Ascii.eqb b "-" && Ascii.eqb c " "
         && Ascii.eqb e ":" && Ascii.eqb f ":" then
        match number 0 [y1; y2; y3; y4], number 0 [m1; m2],
              number 0 [d1; d2], number 0 [h1; h2], number 0 [n1; n2],
              number 0 [s1; s2] with
        | Some y, Some m, Some d, Some h, Some n, Some sec =>
            if (1 <=? y) && (1 <=? m) && (m <=? 12) && (1 <=? d)
               && (d <=? days_in_month y m) && (h <=? 23) && (n <=? 59)
               && (sec <=? 59) then
              Some ((days_from_civil y m d * 86400 + h * 3600 + n * 60 + sec)
                    * 1000000)
            else None
        | _, _, _, _, _, _ => None
        end
      else None
  | _ => None
  end.

Definition json : Type := Z.
Definition json_dumps (j : json) : string := str j.
Definition json_loads (s : string) : option json :=
  match numeric_affinity s with
  | Some n => if String.eqb (str n) s then Some n else None
  | None => None
  end.

End Utc.

(** ** The handlers *)

Section Backend.

(** Python's [json]: the structured payload [Dict[str, Any]], [json.dumps],
    and [json.loads] ([None] when it raises [JSONDecodeError]). *)
Variable json : Type.
Variable json_dumps : json -> string.
Variable json_loads : string -> option json.
Hypothesis loads_dumps : forall j, json_loads (json_dumps j) = Some j.

(** [t.strftime("%Y-%m-%d %H:%M:%S")], which is also the form of SQLite's
    CURRENT_TIMESTAMP, and
    [datetime.strptime(s, "%Y-%m-%d %H:%M:%S").replace(tzinfo=timezone.utc)]
    ([None] when it raises [ValueError]). *)
Variable strftime : datetime -> string.
Variable strptime : string -> option datetime.

(** The limit on bound variables of the SQLite library in use. *)
Variable SQLITE_MAX_VARIABLE_NUMBER : Z.

Record SendCommandRequest := mk_SendCommandRequest {
  q_device_id : string;
  q_command_type : string;
  q_command_data : json
}.

(** An entry of the list [get_pending_commands] returns. *)
Record command_item := mk_command_item {
  i_id : Z;
  i_command_type : string;
  i_command_data : json
}.

Definition now_utc (now : datetime) : string := strftime now.

(** [init_db]: the tables exist from here on; an empty devices table gets
    the demo device. *)
Definition init_db (now : datetime) (db : database) : database :=
  if Z.of_nat (List.length (devices db)) =? 0 then
    let demo_device_id := "demo-device-12345" in
    let current_time := now_utc now in
    insert_device demo_device_id (Some "Test Device (Demo)")
      (Some "Android 14") (Some "+919999999999") (Some 95)
      current_time current_time db
  else db.

(** POST /api/device/register.  Only the INSERT binds the battery level;
    when it does not fit 64 bits [cursor.execute] raises [OverflowError],
    nothing is inserted and the request ends in the uncaught exception. *)
Definition register_device (data : DeviceRegisterRequest) (now : datetime)
    (db : database) : response ack * database :=
  let current_time := now_utc now in
  let device :=
    find (fun d => String.eqb (d_device_id d) (r_device_id data))
      (devices db) in
  match device with
  | Some _ =>
      (Ok (success "Device data received."),
       update_last_seen current_time (r_device_id data) db)
  | None =>
      if binds_as_optional_integer (r_battery_level data) then
        (Ok (success "Device data received."),
         insert_device (r_device_id data) (r_device_name data)
           (r_os_version data) (r_phone_number data) (r_battery_level data)
           current_time current_time db)
      else (Unhandled, db)
  end.

(** The body of the loop of [get_devices]: [strptime] in a [try], the
    fallback of the [except ValueError] branch, and the comparison of
    [(current_time - last_seen_dt).total_seconds()] with the threshold
    (a [timedelta] is a whole number of microseconds, so the comparison is
    the one on microseconds). *)
Definition last_seen_dt (current_time : datetime) (last_seen : string)
  : datetime :=
  match strptime last_seen with
  | Some t => t
  | None => current_time - timedelta (ONLINE_THRESHOLD_SECONDS + 1)
  end.

Definition is_online (current_time : datetime) (last_seen : string) : bool :=
  current_time - last_seen_dt current_time last_seen
  <? timedelta ONLINE_THRESHOLD_SECONDS.

Definition device_response (current_time : datetime) (d : device)
  : DeviceResponse :=
  mk_DeviceResponse (d_device_id d) (d_device_name d) (d_os_version d)
    (d_phone_number d) (d_battery_level d)
    (is_online current_time (d_last_seen d)) (d_created_at d).

(** GET /api/devices *)
Definition get_devices (now : datetime) (db : database)
  : response (list DeviceResponse) * database :=
  let devices := order_by_created_at (devices db) in
  let current_time := now in
  (Ok (map (device_response current_time) devices), db).

(** POST /api/config/sms_forward *)
Definition update_sms_forward_config (forward_number : string)
    (db : database) : response ack * database :=
  (Ok (success "Forwarding number updated successfully."),
   upsert_setting "sms_forward_number" forward_number db).

(** POST /api/config/telegram *)
Definition update_telegram_config (telegram_bot_token telegram_chat_id : string)
    (db : database) : response ack * database :=
  let settings := [("telegram_bot_token", telegram_bot_token);
                   ("telegram_chat_id", telegram_chat_id)] in
  (Ok (success "Telegram config updated successfully."),
   fold_left (fun db kv => upsert_setting (fst kv) (snd kv) db) settings db).

(** POST /api/command/send *)
Definition send_command (data : SendCommandRequest) (now : datetime)
    (db : database) : response ack * database :=
  (Ok (success "Command sent and pending."),
   insert_command (q_device_id data) (q_command_type data)
     (json_dumps (q_command_data data)) (strftime now) db).

(** POST /api/device/{device_id}/forms *)
Definition submit_form (device_id custom_data : string) (now : datetime)
    (db : database) : response ack * database :=
  (Ok (success "Form data submitted."),
   insert_form_submission device_id custom_data (strftime now) db).

(** POST /api/device/{device_id}/sms *)
Definition log_sms (device_id sender message_body : string) (now : datetime)
    (db : database) : response ack * database :=
  (Ok (success "SMS logged successfully."),
   insert_sms_log device_id sender message_body (strftime now) db).

(** The loop of [get_pending_commands] over the fetched rows, with its two
    accumulators; [None] when [json.loads] raises. *)
Fixpoint collect (commands : list command)
    (command_list : list command_item) (command_ids : list string)
  : option (list command_item * list string) :=
  match commands with
  | [] => Some (command_list, command_ids)
  | cmd :: rest =>
      match json_loads (c_command_data cmd) with
      | None => None
      | Some data =>
          collect rest
            (command_list
               ++ [mk_command_item (c_id cmd) (c_command_type cmd) data])
            (command_ids ++ [str (c_id cmd)])
      end
  end.

(** The first half of [get_pending_commands]: the SELECT, [fetchall()] and
    the loop. *)
Definition fetch_pending (device_id : string) (db : database)
  : option (list command_item * list string) :=
  let commands := select_commands device_id pending db in
  collect commands [] [].

(** The second half: [if command_ids:], the UPDATE with one [?] per id and
    the commit.  With more ids than SQLite allows variables the statement
    is refused with [OperationalError] and nothing is marked: [None]. *)
Definition mark_sent (command_ids : list string) (db : database)
  : option database :=
  match command_ids with
  | [] => Some db
  | _ :: _ =>
      if Z.of_nat (List.length command_ids) >? SQLITE_MAX_VARIABLE_NUMBER
      then None
      else Some (update_status_in sent command_ids db)
  end.

(** GET /api/device/{device_id}/commands *)
Definition get_pending_commands (device_id : string) (db : database)
  : response (list command_item) * database :=
  match fetch_pending device_id db with
  | None => (Unhandled, db)
  | Some (command_list, command_ids) =>
      match mark_sent command_ids db with
      | None => (Unhandled, db)
      | Some db' => (Ok command_list, db')
      end
  end.

(** POST /api/command/{command_id}/execute.  The store it leaves is the
    one the UPDATE leaves for every [command_id]; the response is the one
    of a [command_id] that fits a rowid, that is 64 bits. *)
Definition mark_command_executed (command_id : Z) (db : database)
  : response ack * database :=
  (Ok (success
         (String.append "Command "
            (String.append (str command_id) " marked as executed."))),
   update_status executed command_id db).

(** DELETE /api/device/{device_id} *)
Definition delete_device (device_id : string) (db : database)
  : response ack * database :=
  if count_devices device_id db =? 0 then
    (HTTPException 404
       (String.append "Device " (String.append device_id " not found.")),
     db)
  else
    let db1 := delete_devices_where device_id db in
    let db2 := delete_sms_logs_where device_id db1 in
    let db3 := delete_form_submissions_where device_id db2 in
    let db4 := delete_commands_where device_id db3 in
    (Ok (success
           (String.append "Device "
              (String.append device_id " and all associated data deleted."))),
     db4).

(** DELETE /api/sms/{sms_id}: an [sms_id] that does not fit 64 bits makes
    [cursor.execute] raise [OverflowError]; the 404 is raised before the
    commit, and then nothing was deleted. *)
Definition delete_sms_log (sms_id : Z) (db : database)
  : response ack * database :=
  if binds_as_integer sms_id then
    let (rowcount, db') := delete_sms_log_by_id sms_id db in
    if rowcount =? 0 then
      (HTTPException 404
         (String.append "SMS log "
            (String.append (str sms_id) " not found.")),
       db)
    else
      (Ok (success
             (String.append "SMS log "
                (String.append (str sms_id) " deleted."))),
       db')
  else (Unhandled, db).

(** ** Runs of the server *)

(** The requests that write to the store, and the start of a process,
    which runs [init_db]. *)
Inductive request :=
| Startup
| RegisterDevice (data : DeviceRegisterRequest)
| UpdateSmsForwardConfig (forward_number : string)
| UpdateTelegramConfig (telegram_bot_token telegram_chat_id : string)
| SendCommand (data : SendCommandRequest)
| SubmitForm (device_id custom_data : string)
| LogSms (device_id sender message_body : string)
| GetPendingCommands (device_id : string)
| MarkCommandExecuted (command_id : Z)
| DeleteDevice (device_id : string)
| DeleteSmsLog (sms_id : Z).

(** The store after one request served at time [now]. *)
Definition serve (now : datetime) (r : request) (db : database) : database :=
  match r with
  | Startup => init_db now db
  | RegisterDevice data => snd (register_device data now db)
  | UpdateSmsForwardConfig n => snd (update_sms_forward_config n db)
  | UpdateTelegramConfig t c => snd (update_telegram_config t c db)
  | SendCommand data => snd (send_command data now db)
  | SubmitForm d c => snd (submit_form d c now db)
  | LogSms d s m => snd (log_sms d s m now db)
  | GetPendingCommands d => snd (get_pending_commands d db)
  | MarkCommandExecuted c => snd (mark_command_executed c db)
  | DeleteDevice d => snd (delete_device d db)
  | DeleteSmsLog s => snd (delete_sms_log s db)
  end.

(** The stores the server can be in: a fresh file initialised by
    [init_db], then requests served one at a time. *)
Inductive reachable : database -> Prop :=
| reachable_init now : reachable (init_db now empty_db)
| reachable_serve now r db : reachable db -> reachable (serve now r db).

(** The operations of the command dispatcher. *)
Inductive dispatcher_op :=
| Enqueue (data : SendCommandRequest) (now : datetime)
| DeliverPending (device_id : string)
| ConfirmExecuted (command_id : Z).

Definition dispatch (op : dispatcher_op) (db : database) : database :=
  match op with
  | Enqueue data now => snd (send_command data now db)
  | DeliverPending device_id => snd (get_pending_commands device_id db)
  | ConfirmExecuted command_id => snd (mark_command_executed command_id db)
  end.

Definition dispatch_all (ops : list dispatcher_op) (db : database)
  : database :=
  fold_left (fun db op => dispatch op db) ops db.

(** ** Schema constraints *)

(** [commands.id] is a primary key and [devices.device_id] is UNIQUE. *)
Definition schema_ok (db : database) : Prop :=
  NoDup (map c_id (commands db)) /\ NoDup (map d_device_id (devices db)).

(** Every stored payload was written by [json.dumps]. *)
Definition payloads_ok (db : database) : Prop :=
  Forall (fun c => exists j, c_command_data c = json_dumps j) (commands db).

(** What a delivered entry is to the row it was built from: the row's id
    and type, and the structured payload whose serialisation the row
    stores. *)
Definition delivers (c : command) (i : command_item) : Prop :=
  i_id i = c_id c /\
  i_command_type i = c_command_type c /\
  c_command_data c = json_dumps (i_command_data i).

(** What a row of commands may become while it stays in the table: the
    same row, its status no earlier in the life cycle. *)
Definition advances (c c' : command) : Prop :=
  c_id c' = c_id c /\
  c_device_id c' = c_device_id c /\
  c_command_type c' = c_command_type c /\
  c_command_data c' = c_command_data c /\
  c_created_at c' = c_created_at c /\
  rank (c_status c) <= rank (c_status c').

(** The row [init_db] inserts into an empty devices table. *)
Definition demo_device (id : Z) (current_time : string) : device :=
  mk_device id "demo-device-12345" (Some "Test Device (Demo)")
    (Some "Android 14") (Some "+919999999999") (Some 95)
    current_time current_time.

(** ** The handlers that only read *)

(** SELECT setting_value FROM global_settings WHERE setting_key = ?
    followed by [fetchone()]. *)
Definition select_setting (key : string) (db : database) : option string :=
  option_map snd
    (find (fun kv => String.eqb (fst kv) key) (global_settings db)).

(** GET /api/config/sms_forward; the returned dictionary has the one key
    "forward_number". *)
Definition get_sms_forward_config (db : database)
  : response (list (string * string)) * database :=
  match select_setting "sms_forward_number" db with
  | Some setting_value => (Ok [("forward_number", setting_value)], db)
  | None => (Ok [("forward_number", "")], db)
  end.

(** GET /api/config/telegram; [results[key] = ...] in the loop over the
    two keys. *)
Definition get_telegram_config (db : database)
  : response (list (string * string)) * database :=
  let keys := ["telegram_bot_token"; "telegram_chat_id"] in
  (Ok (fold_left
         (fun results key =>
            upsert key
              (match select_setting key db with
               | Some setting_value => setting_value
               | None => ""
               end) results)
         keys []),
   db).

(** ORDER BY column DESC on a text column: the texts are compared byte by
    byte; rows with equal keys keep their rowid order. *)
Fixpoint insert_desc {row : Type} (column : row -> string) (r : row)
    (l : list row) : list row :=
  match l with
  | [] => [r]
  | x :: rest =>
      if String.leb (column x) (column r) then r :: x :: rest
      else x :: insert_desc column r rest
  end.

Definition order_by_desc {row : Type} (column : row -> string)
    (l : list row) : list row :=
  fold_right (insert_desc column) [] l.

(** The entries of the per-device listings: the selected columns. *)
Record form_item := mk_form_item {
  fs_id : Z;
  fs_custom_data : string;
  fs_submitted_at : string
}.

Record sms_item := mk_sms_item {
  sl_id : Z;
  sl_sender : string;
  sl_message_body : string;
  sl_received_at : string
}.

Definition form_item_of (f : form_submission) : form_item :=
  mk_form_item (f_id f) (f_custom_data f) (f_submitted_at f).

Definition sms_item_of (s : sms_log) : sms_item :=
  mk_sms_item (s_id s) (s_sender s) (s_message_body s) (s_received_at s).

(** GET /api/device/{device_id}/forms *)
Definition get_form_submissions (device_id : string) (db : database)
  : response (list form_item) * database :=
  let forms :=
    order_by_desc f_submitted_at
      (filter (fun f => String.eqb (f_device_id f) device_id)
         (form_submissions db)) in
  (Ok (map form_item_of forms), db).

(** GET /api/device/{device_id}/sms *)
Definition get_sms_logs (device_id : string) (db : database)
  : response (list sms_item) * database :=
  let sms_logs :=
    order_by_desc s_received_at
      (filter (fun s => String.eqb (s_device_id s) device_id) (sms_logs db)) in
  (Ok (map sms_item_of sms_logs), db).

(** GET /api/sms_logs; an entry has all the columns of its row. *)
Definition get_all_sms_logs (db : database)
  : response (list sms_log) * database :=
  (Ok (order_by_desc s_received_at (sms_logs db)), db).

(** GET /api/form_submissions; an entry has all the columns of its row. *)
Definition get_all_form_submissions (db : database)
  : response (list form_submission) * database :=
  (Ok (order_by_desc f_submitted_at (form_submissions db)), db).

(** ** More constraints of the schema *)

(** The primary keys of the five tables and the UNIQUE column of devices. *)
Definition keys_unique (db : database) : Prop :=
  NoDup (map d_id (devices db)) /\
  NoDup (map d_device_id (devices db)) /\
  NoDup (map c_id (commands db)) /\
  NoDup (map s_id (sms_logs db)) /\
  NoDup (map f_id (form_submissions db)) /\
  NoDup (map fst (global_settings db)).

(** Every rowid of an AUTOINCREMENT table is positive and at most the
    table's entry in [sqlite_sequence]. *)
Definition ids_bounded (db : database) : Prop :=
  Forall (fun id => 1 <= id <= seq_devices db) (map d_id (devices db)) /\
  Forall (fun id => 1 <= id <= seq_commands db) (map c_id (commands db)) /\
  Forall (fun id => 1 <= id <= seq_sms_logs db) (map s_id (sms_logs db)) /\
  Forall (fun id => 1 <= id <= seq_form_submissions db)
    (map f_id (form_submissions db)) /\
  0 <= seq_devices db /\ 0 <= seq_commands db /\
  0 <= seq_sms_logs db /\ 0 <= seq_form_submissions db.

(** Descending order of the keys of neighbouring entries. *)
Definition descending {row : Type} (column : row -> string) (l : list row)
  : Prop :=
  StronglySorted (fun a b => String.leb (column b) (column a) = true) l.


(** The store after a sequence of requests, each with the time it is
    served at. *)
Definition serve_all (trace : list (datetime * request)) (db : database)
  : database :=
  fold_left (fun db e => serve (fst e) (snd e) db) trace db.

(** ** Two polls that overlap *)

(** Where an invocation of [get_pending_commands] stands: before its
    SELECT, between its loop and its UPDATE with what the loop built, or
    returned. *)
Inductive poll :=
| Polling (device_id : string)
| Fetched (command_list : list command_item) (command_ids : list string)
| Returned (r : response (list command_item)).

(** The next statement of an invocation, on the store as it is then. *)
Definition poll_step (p : poll) (db : database) : poll * database :=
  match p with
  | Polling device_id =>
      match fetch_pending device_id db with
      | None => (Returned Unhandled, db)
      | Some (command_list, command_ids) =>
          (Fetched command_list command_ids, db)
      end
  | Fetched command_list command_ids =>
      match mark_sent command_ids db with
      | None => (Returned Unhandled, db)
      | Some db' => (Returned (Ok command_list), db')
      end
  | Returned r => (Returned r, db)
  end.

(** Two invocations on the same store; the schedule says whose statement
    runs next. *)
Inductive turn := First | Second.

Fixpoint run_polls (schedule : list turn) (a b : poll) (db : database)
  : poll * poll * database :=
  match schedule with
  | [] => (a, b, db)
  | First :: rest =>
      let (a', db') := poll_step a db in run_polls rest a' b db'
  | Second :: rest =>
      let (b', db') := poll_step b db in run_polls rest a b' db'
  end.

(** ** The try block of [get_devices] on any stored value *)

(** [strptime] given the value the driver returns for last_seen: a str is
    parsed, and the [except ValueError] branch supplies the fallback; an
    int, a float or bytes make [strptime] raise [TypeError], which the
    handler does not catch: [None]. *)
Definition try_last_seen_dt (current_time : datetime)
    (value : datetime_value) : option datetime :=
  match value with
  | StoredText s => Some (last_seen_dt current_time s)
  | StoredInteger _ | StoredReal | StoredBlob => None
  end.

(** The loop over the rows' last_seen values: the is_online flags of the
    listing, or [None] when the exception ends the request. *)
Fixpoint presence_loop (current_time : datetime)
    (values : list datetime_value) : option (list bool) :=
  match values with
  | [] => Some []
  | value :: rest =>
      match try_last_seen_dt current_time value with
      | None => None
      | Some t =>
          match presence_loop current_time rest with
          | None => None
          | Some flags =>
              Some ((current_time - t <? timedelta ONLINE_THRESHOLD_SECONDS)
                      :: flags)
          end
      end
  end.

(** * Properties *)

(** ** Identifiers survive the trip through [str] and the IN list *)

Lemma numeric_affinity_str (n : Z) : numeric_affinity (str n) = Some n.
Proof.
  unfold numeric_affinity, str.
  rewrite NilZero.isi.
  - simpl. now rewrite DecimalZ.of_to.
  - destruct n; simpl; try discriminate.
    intros [= H]. now apply DecimalPos.Unsigned.to_uint_nonnil in H.
  - destruct n; simpl; try discriminate.
    intros [= H]. now apply DecimalPos.Unsigned.to_uint_nonnil in H.
Qed.

Lemma id_in_map_str (id : Z) (ids : list Z) :
  id_in id (map str ids) = true <-> In id ids.
Proof.
  unfold id_in. rewrite existsb_exists. split.
  - intros (p & Hp & Hm). apply in_map_iff in Hp as (n & <- & Hn).
    rewrite numeric_affinity_str in Hm. apply Z.eqb_eq in Hm. now subst.
  - intros Hin. exists (str id). split.
    + now apply in_map.
    + rewrite numeric_affinity_str. apply Z.eqb_refl.
Qed.

Lemma status_eqb_eq (a b : status) : status_eqb a b = true <-> a = b.
Proof. destruct a, b; simpl; split; congruence. Qed.

(** ** The loop of [get_pending_commands] *)

Lemma collect_dumped (commands : list command) :
  Forall (fun c => exists j, c_command_data c = json_dumps j) commands ->
  forall command_list command_ids,
  exists items,
    collect commands command_list command_ids
    = Some (command_list ++ items,
            command_ids ++ map str (map c_id commands))
    /\ Forall2 delivers commands items.
Proof.
  induction 1 as [|c rest [j Hj] _ IH]; intros command_list command_ids.
  - exists []. simpl. now rewrite !app_nil_r.
  - simpl. rewrite Hj, loads_dumps.
    destruct (IH (command_list ++ [mk_command_item (c_id c) (c_command_type c) j])
                 (command_ids ++ [str (c_id c)])) as (items & -> & Hitems).
    exists (mk_command_item (c_id c) (c_command_type c) j :: items).
    rewrite <- !app_assoc. simpl. split; [reflexivity|].
    constructor; [|assumption]. now repeat split.
Qed.

Lemma select_commands_in (device_id : string) (s : status) (db : database)
    (c : command) :
  In c (select_commands device_id s db) <->
  In c (commands db) /\ c_device_id c = device_id /\ c_status c = s.
Proof.
  unfold select_commands. rewrite filter_In, andb_true_iff.
  now rewrite String.eqb_eq, status_eqb_eq.
Qed.

Lemma select_commands_dumped (device_id : string) (s : status)
    (db : database) :
  payloads_ok db ->
  Forall (fun c => exists j, c_command_data c = json_dumps j)
    (select_commands device_id s db).
Proof.
  unfold payloads_ok. rewrite !Forall_forall. intros H c Hc.
  apply H. now apply select_commands_in in Hc.
Qed.

(** What [get_pending_commands] does on a store whose payloads were
    written by [json.dumps]. *)
Lemma get_pending_commands_dumped (device_id : string) (db : database) :
  payloads_ok db ->
  Z.of_nat (List.length (select_commands device_id pending db))
  <= SQLITE_MAX_VARIABLE_NUMBER ->
  exists items,
    Forall2 delivers (select_commands device_id pending db) items /\
    get_pending_commands device_id db
    = (Ok items,
       match select_commands device_id pending db with
       | [] => db
       | _ :: _ =>
           update_status_in sent
             (map str (map c_id (select_commands device_id pending db))) db
       end).
Proof.
  intros Hp Hlimit. unfold get_pending_commands, fetch_pending, mark_sent.
  destruct (collect_dumped _ (select_commands_dumped device_id pending db Hp)
              [] []) as (items & -> & Hitems).
  exists items. split; [assumption|].
  destruct (select_commands device_id pending db) as [|c l]; [reflexivity|].
  rewrite !app_nil_l. cbn [map].
  replace (Z.of_nat (List.length (str (c_id c) :: map str (map c_id l)))
           >? SQLITE_MAX_VARIABLE_NUMBER) with false; [reflexivity|].
  symmetry. rewrite Z.gtb_ltb. apply Z.ltb_ge.
  cbn [List.length] in *. now rewrite !length_map.
Qed.

Lemma collect_ids (commands : list command) :
  forall command_list command_ids command_list' command_ids',
  collect commands command_list command_ids
  = Some (command_list', command_ids') ->
  command_ids' = command_ids ++ map str (map c_id commands).
Proof.
  induction commands as [|c rest IH]; simpl;
    intros command_list command_ids command_list' command_ids' H.
  - injection H as _ <-. now rewrite app_nil_r.
  - destruct (json_loads (c_command_data c)); [|discriminate].
    apply IH in H. now rewrite H, <- app_assoc.
Qed.

(** The two ways a poll can end: the store as it was (nothing pending, or
    an exception), or the selected rows marked and the built list
    returned. *)
Lemma get_pending_commands_cases (device_id : string) (db : database) :
  (exists r, get_pending_commands device_id db = (r, db)) \/
  (exists command_list,
     get_pending_commands device_id db
     = (Ok command_list,
        update_status_in sent
          (map str (map c_id (select_commands device_id pending db))) db)).
Proof.
  unfold get_pending_commands, fetch_pending, mark_sent.
  destruct (collect _ [] []) as [[command_list command_ids]|] eqn:E;
    [|left; eexists; reflexivity].
  apply collect_ids in E. rewrite app_nil_l in E. subst command_ids.
  destruct (map str _) as [|p ps] eqn:Eids; [left; eexists; reflexivity|].
  rewrite <- Eids.
  destruct (_ >? _); [left|right]; eexists; reflexivity.
Qed.

(** Once the selected rows are marked, none of them is selected again. *)
Lemma select_after_update (device_id : string) (db : database) :
  select_commands device_id pending
    (update_status_in sent
       (map str (map c_id (select_commands device_id pending db))) db) = [].
Proof.
  destruct (select_commands device_id pending (update_status_in sent _ db))
    as [|c l] eqn:E in |- *; [reflexivity|exfalso].
  assert (Hc : In c (c :: l)) by now left.
  rewrite <- E in Hc. apply select_commands_in in Hc as (Hin & Hdev & Hst).
  simpl in Hin. apply in_map_iff in Hin as (c0 & Hc0 & Hin0).
  destruct (id_in (c_id c0) _) eqn:Hid.
  - subst c. discriminate Hst.
  - subst c0.
    assert (Hsel : In c (select_commands device_id pending db))
      by now apply select_commands_in.
    apply (in_map c_id) in Hsel. apply id_in_map_str in Hsel. congruence.
Qed.

(** ** The schema constraints hold in every reachable store *)

Lemma autoincrement_fresh (seq : Z) (ids : list Z) (i : Z) :
  In i ids -> i < autoincrement seq ids.
Proof.
  unfold autoincrement. induction ids as [|x ids IH]; simpl; [easy|].
  intros [->|Hin]; [|specialize (IH Hin)]; lia.
Qed.

Lemma filter_keeps_keys_distinct (row key : Type) (column : row -> key)
    (keep : row -> bool) :
  forall rows, NoDup (map column rows) ->
               NoDup (map column (filter keep rows)).
Proof.
  intros rows. induction rows as [|r rows IH]; simpl; [easy|].
  intros H. inversion H as [|? ? Hr Hrows]; subst.
  destruct (keep r); simpl; [constructor|]; auto.
  rewrite in_map_iff in *. intros (r' & Hkey & Hin).
  apply Hr. exists r'. split; [assumption|]. now apply filter_In in Hin.
Qed.

Lemma NoDup_snoc {A : Type} (l : list A) (x : A) :
  NoDup l -> ~ In x l -> NoDup (l ++ [x]).
Proof.
  intros Hl Hx. induction Hl as [|y l Hy Hl IH]; simpl.
  - constructor; [easy|constructor].
  - constructor.
    + rewrite in_app_iff. simpl. intros [H|[H|[]]]; [easy|].
      apply Hx. now left.
    + apply IH. intros H. apply Hx. now right.
Qed.

Lemma find_device_none (device_id : string) (l : list device) :
  find (fun d => String.eqb (d_device_id d) device_id) l = None ->
  ~ In device_id (map d_device_id l).
Proof.
  intros Hf Hin. apply in_map_iff in Hin as (d & Hd & Hin).
  apply (find_none _ _ Hf) in Hin. simpl in Hin.
  rewrite <- Hd, String.eqb_refl in Hin. discriminate.
Qed.

Lemma map_c_id_update (f : command -> bool) (s : status) (l : list command) :
  map c_id (map (fun c => if f c then set_status s c else c) l) = map c_id l.
Proof.
  rewrite map_map. apply map_ext. intros c. now destruct (f c).
Qed.

Lemma map_d_device_id_update (f : device -> bool) (t : string)
    (l : list device) :
  map d_device_id (map (fun d => if f d then set_last_seen t d else d) l)
  = map d_device_id l.
Proof.
  rewrite map_map. apply map_ext. intros d. now destruct (f d).
Qed.

Lemma schema_ok_insert_command (device_id command_type command_data t : string)
    (db : database) :
  schema_ok db ->
  schema_ok (insert_command device_id command_type command_data t db).
Proof.
  intros [Hc Hd]. split; [|exact Hd]. simpl.
  rewrite map_app. simpl. apply NoDup_snoc; [assumption|].
  intros Hin. apply (autoincrement_fresh (seq_commands db)) in Hin. lia.
Qed.

Lemma schema_ok_insert_device (device_id : string)
    (n o p : option string) (b : option Z) (t t' : string) (db : database) :
  schema_ok db ->
  ~ In device_id (map d_device_id (devices db)) ->
  schema_ok (insert_device device_id n o p b t t' db).
Proof.
  intros [Hc Hd] Hnew. split; [exact Hc|]. simpl.
  rewrite map_app. simpl. now apply NoDup_snoc.
Qed.

Lemma schema_ok_init_db (now : datetime) (db : database) :
  schema_ok db -> schema_ok (init_db now db).
Proof.
  intros H. unfold init_db.
  destruct (devices db) as [|d l] eqn:E; simpl; [|exact H].
  apply schema_ok_insert_device; [exact H|]. now rewrite E.
Qed.

Lemma schema_ok_get_pending_commands (device_id : string) (db : database) :
  schema_ok db -> schema_ok (snd (get_pending_commands device_id db)).
Proof.
  intros [Hc Hd].
  destruct (get_pending_commands_cases device_id db) as [[r E]|[cl E]];
    rewrite E; simpl; [now split|].
  split; [|exact Hd]. simpl. now rewrite map_c_id_update.
Qed.

Lemma schema_ok_serve (now : datetime) (r : request) (db : database) :
  schema_ok db -> schema_ok (serve now r db).
Proof.
  intros H. destruct r; simpl.
  - now apply schema_ok_init_db.
  - unfold register_device. destruct (find _ (devices db)) eqn:E.
    + destruct H as [Hc Hd]. split; [exact Hc|]. simpl.
      now rewrite map_d_device_id_update.
    + destruct (binds_as_optional_integer _); [|exact H].
      apply schema_ok_insert_device; [exact H|].
      now apply find_device_none.
  - exact H.
  - exact H.
  - now apply schema_ok_insert_command.
  - exact H.
  - exact H.
  - now apply schema_ok_get_pending_commands.
  - destruct H as [Hc Hd]. split; [|exact Hd]. simpl.
    now rewrite map_c_id_update.
  - unfold delete_device. destruct (count_devices device_id db =? 0); [exact H|].
    destruct H as [Hc Hd]. split; simpl; now apply filter_keeps_keys_distinct.
  - unfold delete_sms_log. destruct (binds_as_integer sms_id); [|exact H].
    simpl. destruct (Z.of_nat _ =? 0); exact H.
Qed.

Lemma schema_ok_empty : schema_ok empty_db.
Proof. split; constructor. Qed.

Lemma reachable_schema_ok (db : database) : reachable db -> schema_ok db.
Proof.
  induction 1.
  - apply schema_ok_init_db, schema_ok_empty.
  - now apply schema_ok_serve.
Qed.

(** ** Every stored payload is a [json.dumps] output *)

Lemma payloads_ok_update (f : command -> bool) (s : status) (db : database) :
  payloads_ok db ->
  payloads_ok
    (with_commands
       (map (fun c => if f c then set_status s c else c) (commands db)) db).
Proof.
  unfold payloads_ok. simpl. rewrite !Forall_forall. intros H c Hc.
  apply in_map_iff in Hc as (c0 & <- & Hin).
  destruct (f c0); simpl; now apply H.
Qed.

Lemma payloads_ok_serve (now : datetime) (r : request) (db : database) :
  payloads_ok db -> payloads_ok (serve now r db).
Proof.
  intros H. destruct r; simpl; try exact H.
  - unfold init_db. destruct (_ =? 0); exact H.
  - unfold register_device. destruct (find _ (devices db)); [exact H|].
    destruct (binds_as_optional_integer _); exact H.
  - unfold payloads_ok. simpl. apply Forall_app. split; [exact H|].
    constructor; [|constructor]. now exists (q_command_data data).
  - destruct (get_pending_commands_cases device_id db) as [[r E]|[cl E]];
      rewrite E; simpl; [exact H|].
    now apply payloads_ok_update.
  - now apply payloads_ok_update.
  - unfold delete_device. destruct (count_devices device_id db =? 0); [exact H|].
    unfold payloads_ok in *. simpl. rewrite Forall_forall in *.
    intros c Hc. apply filter_In in Hc. now apply H.
  - unfold delete_sms_log. destruct (binds_as_integer sms_id); [|exact H].
    simpl. destruct (Z.of_nat _ =? 0); exact H.
Qed.

Lemma reachable_payloads_ok (db : database) : reachable db -> payloads_ok db.
Proof.
  induction 1.
  - unfold init_db. simpl. constructor.
  - now apply payloads_ok_serve.
Qed.

(** ** Delivery, one call after the other *)

Lemma get_pending_commands_nothing (device_id : string) (db : database) :
  select_commands device_id pending db = [] ->
  get_pending_commands device_id db = (Ok [], db).
Proof.
  intros E. unfold get_pending_commands, fetch_pending. now rewrite E.
Qed.

(** Above the limit the UPDATE is refused: the poll fails and the rows stay
    pending. *)
Lemma get_pending_commands_too_many (device_id : string) (db : database) :
  payloads_ok db ->
  0 <= SQLITE_MAX_VARIABLE_NUMBER ->
  SQLITE_MAX_VARIABLE_NUMBER
  < Z.of_nat (List.length (select_commands device_id pending db)) ->
  get_pending_commands device_id db = (Unhandled, db).
Proof.
  intros Hp Hlimit Hmany.
  unfold get_pending_commands, fetch_pending, mark_sent.
  destruct (collect_dumped _ (select_commands_dumped device_id pending db Hp)
              [] []) as (items & -> & Hitems).
  rewrite !app_nil_l.
  destruct (select_commands device_id pending db) as [|c l];
    [simpl in Hmany; lia|].
  cbn [map].
  replace (Z.of_nat (List.length (str (c_id c) :: map str (map c_id l)))
           >? SQLITE_MAX_VARIABLE_NUMBER) with true; [reflexivity|].
  symmetry. rewrite Z.gtb_ltb. apply Z.ltb_lt.
  cbn [List.length] in *. now rewrite !length_map.
Qed.

(** (get_pending_commands, called twice with nothing in between, with no
    more pending rows than the UPDATE can bind.)
    In every store the server can reach, with [N] rows pending for the
    device and [N] within the variable limit: the first call returns [N]
    entries, one per pending row and in the rows' order, each with the
    row's id and type and the structured payload that was serialised into
    the row; the second call returns the empty list and leaves the store as
    the first call left it; afterwards each of the [N] rows is in the store
    with status sent and every row with one of their ids has status sent.
    When nothing is pending the call returns the empty list, does not fail,
    and the store is unchanged. *)
Theorem deliver_pending_twice (device_id : string) (db : database) :
  reachable db ->
  Z.of_nat (List.length (select_commands device_id pending db))
  <= SQLITE_MAX_VARIABLE_NUMBER ->
  exists items db1,
    get_pending_commands device_id db = (Ok items, db1) /\
    Forall2 delivers (select_commands device_id pending db) items /\
    List.length items
    = List.length (select_commands device_id pending db) /\
    get_pending_commands device_id db1 = (Ok [], db1) /\
    (forall c, In c (select_commands device_id pending db) ->
               In (set_status sent c) (commands db1)) /\
    (forall c, In c (commands db1) ->
               In (c_id c) (map c_id (select_commands device_id pending db)) ->
               c_status c = sent) /\
    (select_commands device_id pending db = [] ->
     items = [] /\ db1 = db).
Proof.
  intros Hr Hlimit. pose proof (reachable_payloads_ok db Hr) as Hp.
  destruct (get_pending_commands_dumped device_id db Hp Hlimit)
    as (items & Hitems & Hcall).
  clear Hlimit.
  destruct (select_commands device_id pending db) as [|c0 pend] eqn:E.
  - exists items, db. inversion Hitems; subst.
    split; [exact Hcall|]. split; [constructor|]. split; [reflexivity|].
    split; [now apply get_pending_commands_nothing|].
    split; [intros c []|]. split; [intros c _ []|]. now split.
  - rewrite <- E in *.
    exists items,
      (update_status_in sent
         (map str (map c_id (select_commands device_id pending db))) db).
    split; [exact Hcall|]. split; [exact Hitems|].
    split; [symmetry; eapply Forall2_length; exact Hitems|].
    split; [apply get_pending_commands_nothing, select_after_update|].
    split; [|split].
    + intros c Hc. simpl. apply in_map_iff. exists c. split.
      * apply (in_map c_id) in Hc. apply id_in_map_str in Hc. now rewrite Hc.
      * now apply select_commands_in in Hc.
    + intros c Hc Hid. simpl in Hc.
      apply in_map_iff in Hc as (c1 & Hc1 & Hin).
      destruct (id_in (c_id c1) _) eqn:Hin1; subst c; [reflexivity|].
      apply id_in_map_str in Hid. congruence.
    + rewrite E. discriminate.
Qed.

(** ** The device listing *)

Lemma insert_by_created_at_perm (d : device) (l : list device) :
  Permutation (insert_by_created_at d l) (d :: l).
Proof.
  induction l as [|x l IH]; simpl; [reflexivity|].
  destruct (String.leb (d_created_at d) (d_created_at x)); [reflexivity|].
  rewrite IH. apply perm_swap.
Qed.

Lemma order_by_created_at_perm (l : list device) :
  Permutation (order_by_created_at l) l.
Proof.
  induction l as [|d l IH]; simpl; [reflexivity|].
  rewrite insert_by_created_at_perm. now constructor.
Qed.


(** C3 (get_devices, the presence test).  For every entry of the listing
    there is the stored device it was built from, and when that device's
    last_seen parses to the instant [t], is_online is true exactly when
    [now - t] is less than 20 seconds: at exactly 20 seconds elapsed the
    device is offline, one millisecond earlier it is online.  The threshold
    is the constant [ONLINE_THRESHOLD_SECONDS] = 20 for every device, and
    both instants are UTC. *)
Theorem is_online_threshold (now : datetime) (db : database)
    (listing : list DeviceResponse) (db' : database) (o : DeviceResponse) :
  get_devices now db = (Ok listing, db') ->
  In o listing ->
  exists d,
    In d (devices db) /\
    o = device_response now d /\
    forall t, strptime (d_last_seen d) = Some t ->
      (o_is_online o = true <-> now - t < 20 * 1000000) /\
      (now - t = 20 * 1000000 -> o_is_online o = false) /\
      (now - t = 20 * 1000000 - 1000 -> o_is_online o = true).
Proof.
  intros Hcall Ho. unfold get_devices in Hcall.
  injection Hcall as <- <-.
  apply in_map_iff in Ho as (d & <- & Hd).
  exists d. split.
  - eapply Permutation_in; [apply order_by_created_at_perm|exact Hd].
  - split; [reflexivity|]. intros t Ht. simpl.
    unfold is_online, last_seen_dt. rewrite Ht.
    unfold timedelta, ONLINE_THRESHOLD_SECONDS.
    rewrite Z.ltb_lt. repeat split; intros; lia.
Qed.


(** ** Check-in *)

Lemma find_device_some (device_id : string) (l : list device) :
  In device_id (map d_device_id l) ->
  exists d, find (fun d => String.eqb (d_device_id d) device_id) l = Some d.
Proof.
  intros Hin.
  destruct (find (fun d => String.eqb (d_device_id d) device_id) l) eqn:E.
  - now exists d.
  - now apply find_device_none in E.
Qed.

Lemma count_devices_zero (device_id : string) (db : database) :
  count_devices device_id db = 0 <->
  ~ In device_id (map d_device_id (devices db)).
Proof.
  unfold count_devices. split.
  - intros H Hin. apply in_map_iff in Hin as (d & Hd & Hin).
    assert (Hf : In d (filter (fun d => String.eqb (d_device_id d) device_id)
                         (devices db))).
    { apply filter_In. split; [assumption|]. now apply String.eqb_eq. }
    destruct (filter _ (devices db)); [contradiction|discriminate].
  - intros Hnot.
    destruct (filter _ (devices db)) as [|d l] eqn:E; [reflexivity|exfalso].
    assert (Hf : In d (d :: l)) by now left.
    rewrite <- E in Hf. apply filter_In in Hf as [Hin Heq].
    apply String.eqb_eq in Heq. apply Hnot. rewrite <- Heq.
    now apply in_map.
Qed.

(** (register_device.)  The request touches no table but devices.  For a
    device_id no stored device has and a battery level that is absent or
    fits 64 bits, it answers success and appends one row that carries the
    request's metadata and has last_seen and created_at both equal to the
    current time, so that exactly one device has that device_id afterwards
    and the rows stored before are as they were; with a battery level that
    does not fit, the request ends in the uncaught exception and the store
    is what it was.  For a device_id that is stored, it answers success and
    the table keeps its rows in place: each row keeps its id, device_id,
    device_name, os_version, phone_number, battery_level and created_at
    whatever the request carries, and only last_seen of the rows with that
    device_id becomes the current time. *)
Theorem check_in_creates_or_touches_last_seen (data : DeviceRegisterRequest)
    (now : datetime) (db : database) :
  exists r db',
    register_device data now db = (r, db') /\
    commands db' = commands db /\
    sms_logs db' = sms_logs db /\
    form_submissions db' = form_submissions db /\
    global_settings db' = global_settings db /\
    (~ In (r_device_id data) (map d_device_id (devices db)) ->
     binds_as_optional_integer (r_battery_level data) = true ->
     r = Ok (success "Device data received.") /\
     (exists id,
        devices db'
        = devices db
          ++ [mk_device id (r_device_id data) (r_device_name data)
                (r_os_version data) (r_phone_number data)
                (r_battery_level data) (now_utc now) (now_utc now)]) /\
     count_devices (r_device_id data) db' = 1) /\
    (~ In (r_device_id data) (map d_device_id (devices db)) ->
     binds_as_optional_integer (r_battery_level data) = false ->
     r = Unhandled /\ db' = db) /\
    (In (r_device_id data) (map d_device_id (devices db)) ->
     r = Ok (success "Device data received.") /\
     Forall2
       (fun d d' =>
          d_id d' = d_id d /\
          d_device_id d' = d_device_id d /\
          d_device_name d' = d_device_name d /\
          d_os_version d' = d_os_version d /\
          d_phone_number d' = d_phone_number d /\
          d_battery_level d' = d_battery_level d /\
          d_created_at d' = d_created_at d /\
          d_last_seen d'
          = if String.eqb (d_device_id d) (r_device_id data)
            then now_utc now else d_last_seen d)
       (devices db) (devices db')).
Proof.
  unfold register_device.
  destruct (find _ (devices db)) as [d0|] eqn:E.
  - eexists. eexists. split; [reflexivity|]. simpl.
    repeat (split; [reflexivity|]).
    assert (Hin : In (r_device_id data) (map d_device_id (devices db))).
    { apply find_some in E as [Hin Heq]. apply String.eqb_eq in Heq.
      rewrite <- Heq. now apply in_map. }
    split; [intros Hnot; contradiction|].
    split; [intros Hnot; contradiction|].
    intros _. split; [reflexivity|]. clear E Hin.
    induction (devices db) as [|d l IH]; simpl; constructor.
    + destruct (String.eqb (d_device_id d) (r_device_id data));
        simpl; now repeat split.
    + exact IH.
  - pose proof (find_device_none _ _ E) as Hnew.
    destruct (binds_as_optional_integer (r_battery_level data)) eqn:Eb.
    + eexists. eexists. split; [reflexivity|]. simpl.
      repeat (split; [reflexivity|]).
      split; [|split; [discriminate|contradiction]].
      intros _ _. split; [reflexivity|]. split; [eexists; reflexivity|].
      unfold count_devices. simpl. rewrite filter_app. simpl.
      rewrite String.eqb_refl.
      apply count_devices_zero in Hnew. unfold count_devices in Hnew.
      destruct (filter _ (devices db)); [reflexivity|discriminate].
    + eexists. eexists. split; [reflexivity|].
      repeat (split; [reflexivity|]).
      split; [discriminate|]. split; [now split|contradiction].
Qed.

(** ** Deleting a device *)

(** C6 (delete_device).  For a device_id that is stored, the request answers
    success and afterwards no row of devices, commands, sms_logs or
    form_submissions carries that device_id, while every row of another
    device is still there.  For a device_id that is not stored, the request
    raises the 404 HTTPException and the store is exactly what it was. *)
Theorem delete_device_cascades_or_not_found (device_id : string)
    (db : database) :
  (In device_id (map d_device_id (devices db)) ->
   exists db',
     delete_device device_id db
     = (Ok (success
              (String.append "Device "
                 (String.append device_id
                    " and all associated data deleted."))), db') /\
     ~ In device_id (map d_device_id (devices db')) /\
     ~ In device_id (map c_device_id (commands db')) /\
     ~ In device_id (map s_device_id (sms_logs db')) /\
     ~ In device_id (map f_device_id (form_submissions db')) /\
     (forall d, In d (devices db) -> d_device_id d <> device_id ->
                In d (devices db')) /\
     (forall c, In c (commands db) -> c_device_id c <> device_id ->
                In c (commands db')) /\
     (forall s, In s (sms_logs db) -> s_device_id s <> device_id ->
                In s (sms_logs db')) /\
     (forall f, In f (form_submissions db) -> f_device_id f <> device_id ->
                In f (form_submissions db')) /\
     global_settings db' = global_settings db) /\
  (~ In device_id (map d_device_id (devices db)) ->
   delete_device device_id db
   = (HTTPException 404
        (String.append "Device " (String.append device_id " not found.")),
      db)).
Proof.
  assert (Hgone : forall (A : Type) (key : A -> string) (l : list A),
             ~ In device_id
                 (map key
                    (filter (fun x => negb (String.eqb (key x) device_id)) l))).
  { intros A key l Hin. apply in_map_iff in Hin as (x & Hx & Hin).
    apply filter_In in Hin as [_ Hneq].
    rewrite Hx, String.eqb_refl in Hneq. discriminate. }
  assert (Hkept : forall (A : Type) (key : A -> string) (l : list A) (x : A),
             In x l -> key x <> device_id ->
             In x (filter (fun x => negb (String.eqb (key x) device_id)) l)).
  { intros A key l x Hin Hneq. apply filter_In. split; [assumption|].
    apply negb_true_iff. now apply String.eqb_neq. }
  unfold delete_device. split.
  - intros Hin.
    destruct (count_devices device_id db =? 0) eqn:E.
    + apply Z.eqb_eq, count_devices_zero in E. contradiction.
    + eexists. split; [reflexivity|]. simpl.
      repeat (split; [apply Hgone|]).
      repeat (split; [apply Hkept|]). reflexivity.
  - intros Hnot. apply count_devices_zero in Hnot. now rewrite Hnot.
Qed.

(** ** The life cycle of a command *)

Lemma key_identifies_row (row key : Type) (column : row -> key)
    (rows : list row) :
  NoDup (map column rows) ->
  forall r r', In r rows -> In r' rows -> column r = column r' -> r = r'.
Proof.
  induction rows as [|a rows IH]; simpl; [easy|].
  intros H r r' Hr Hr' Hkey. inversion H as [|? ? Ha Hrows]; subst.
  destruct Hr as [->|Hr], Hr' as [->|Hr']; auto.
  - exfalso. apply Ha. rewrite Hkey. now apply in_map.
  - exfalso. apply Ha. rewrite <- Hkey. now apply in_map.
Qed.

Lemma advances_refl (c : command) : advances c c.
Proof. unfold advances. repeat split; lia. Qed.

Lemma advances_trans (a b c : command) :
  advances a b -> advances b c -> advances a c.
Proof.
  unfold advances. intros (?&?&?&?&?&?) (?&?&?&?&?&?).
  repeat split; try congruence; lia.
Qed.

Lemma advances_set_status (s : status) (c : command) :
  rank (c_status c) <= rank s -> advances c (set_status s c).
Proof. unfold advances. simpl. now repeat split. Qed.

Lemma Forall2_refl_on {A : Type} (R : A -> A -> Prop) (l : list A) :
  (forall x, R x x) -> Forall2 R l l.
Proof. intros H. induction l; constructor; auto. Qed.

Lemma Forall2_trans_on {A : Type} (R : A -> A -> Prop) :
  (forall x y z, R x y -> R y z -> R x z) ->
  forall l1 l2 l3, Forall2 R l1 l2 -> Forall2 R l2 l3 -> Forall2 R l1 l3.
Proof.
  intros HR l1 l2 l3 H12. revert l3.
  induction H12; intros l3 H23; inversion H23; subst; constructor; eauto.
Qed.

Lemma Forall2_map_same {A : Type} (R : A -> A -> Prop) (f : A -> A)
    (l : list A) :
  (forall x, In x l -> R x (f x)) -> Forall2 R l (map f l).
Proof.
  induction l as [|x l IH]; simpl; intros H; constructor.
  - apply H. now left.
  - apply IH. intros y Hy. apply H. now right.
Qed.

(** A delivery marks only rows that were pending. *)
Lemma deliver_rows (device_id : string) (db : database) :
  schema_ok db ->
  Forall2 (fun c c' => c' = c \/ (c_status c = pending /\ c' = set_status sent c))
    (commands db) (commands (snd (get_pending_commands device_id db))).
Proof.
  intros [Hnodup _].
  destruct (get_pending_commands_cases device_id db) as [[r E]|[cl E]];
    rewrite E; simpl; [apply Forall2_refl_on; now left|].
  apply Forall2_map_same. intros c Hc.
  destruct (id_in (c_id c) _) eqn:Hid; [right|now left].
  split; [|reflexivity].
  apply id_in_map_str, in_map_iff in Hid as (c0 & Hid & Hsel).
  apply select_commands_in in Hsel as (Hin0 & _ & Hst).
  now rewrite <- (key_identifies_row _ _ c_id _ Hnodup c0 c Hin0 Hc Hid).
Qed.

(** A confirmation writes only the status executed. *)
Lemma confirm_rows (command_id : Z) (db : database) :
  Forall2 (fun c c' => c' = c \/ c' = set_status executed c)
    (commands db) (commands (snd (mark_command_executed command_id db))).
Proof.
  simpl. apply Forall2_map_same. intros c _.
  destruct (c_id c =? command_id); auto.
Qed.

Lemma dispatch_advances (op : dispatcher_op) (db : database) :
  schema_ok db ->
  exists kept added,
    commands (dispatch op db) = kept ++ added /\
    Forall2 advances (commands db) kept.
Proof.
  intros Hs. destruct op as [data now|device_id|command_id].
  - exists (commands db), [mk_command
                            (autoincrement (seq_commands db)
                               (map c_id (commands db)))
                            (q_device_id data) (q_command_type data)
                            (json_dumps (q_command_data data)) pending
                            (strftime now)].
    split; [reflexivity|]. apply Forall2_refl_on, advances_refl.
  - exists (commands (snd (get_pending_commands device_id db))), [].
    split; [now rewrite app_nil_r|].
    eapply Forall2_impl; [|apply deliver_rows, Hs].
    intros c c' [->|[Hp ->]]; [apply advances_refl|].
    apply advances_set_status. rewrite Hp. simpl. lia.
  - exists (commands (snd (mark_command_executed command_id db))), [].
    split; [now rewrite app_nil_r|].
    eapply Forall2_impl; [|apply confirm_rows].
    intros c c' [->| ->]; [apply advances_refl|].
    apply advances_set_status. destruct (c_status c); simpl; lia.
Qed.

Lemma schema_ok_dispatch (op : dispatcher_op) (db : database) :
  schema_ok db -> schema_ok (dispatch op db).
Proof.
  intros H. destruct op as [data now|device_id|command_id].
  - exact (schema_ok_serve now (SendCommand data) db H).
  - exact (schema_ok_serve 0 (GetPendingCommands device_id) db H).
  - exact (schema_ok_serve 0 (MarkCommandExecuted command_id) db H).
Qed.

Lemma dispatch_all_advances (ops : list dispatcher_op) :
  forall db, schema_ok db ->
  exists kept added,
    commands (dispatch_all ops db) = kept ++ added /\
    Forall2 advances (commands db) kept.
Proof.
  induction ops as [|op ops IH]; intros db Hs.
  - exists (commands db), []. split; [now rewrite app_nil_r|].
    apply Forall2_refl_on, advances_refl.
  - destruct (dispatch_advances op db Hs) as (kept1 & added1 & E1 & H1).
    destruct (IH (dispatch op db) (schema_ok_dispatch op db Hs))
      as (kept & added & E & H).
    rewrite E1 in H. apply Forall2_app_inv_l in H as (k1 & k2 & Hk1 & Hk2 & ->).
    exists k1, (k2 ++ added). split.
    + change (dispatch_all (op :: ops) db)
        with (dispatch_all ops (dispatch op db)).
      rewrite E. now rewrite app_assoc.
    + eapply Forall2_trans_on; [apply advances_trans|exact H1|exact Hk1].
Qed.

(** C7 (send_command, get_pending_commands, mark_command_executed, served
    one at a time).  From a store that meets the schema's key constraints,
    after any sequence of enqueue, deliver and confirm operations every row
    of commands is still in the table, at its place, with its id, device,
    type, payload and creation time, and with a status that is not earlier
    in pending < sent < executed than the one it had.  A delivery changes a
    row only from pending to sent; a confirmation changes a row only to
    executed; an enqueue changes no stored row. *)
Theorem status_never_moves_backward (db : database) :
  schema_ok db ->
  (forall ops,
     exists kept added,
       commands (dispatch_all ops db) = kept ++ added /\
       Forall2 advances (commands db) kept) /\
  (forall device_id,
     Forall2 (fun c c' =>
                c' = c \/ (c_status c = pending /\ c' = set_status sent c))
       (commands db) (commands (dispatch (DeliverPending device_id) db))) /\
  (forall command_id,
     Forall2 (fun c c' => c' = c \/ c' = set_status executed c)
       (commands db) (commands (dispatch (ConfirmExecuted command_id) db))) /\
  (forall data now,
     exists c,
       commands (dispatch (Enqueue data now) db) = commands db ++ [c] /\
       c_status c = pending).
Proof.
  intros Hs. split; [|split; [|split]].
  - intros ops. now apply dispatch_all_advances.
  - intros device_id. now apply deliver_rows.
  - intros command_id. apply confirm_rows.
  - intros data now. eexists. split; reflexivity.
Qed.

(** ** Confirmation *)

Lemma update_status_twice (s : status) (id : Z) (db : database) :
  update_status s id (update_status s id db) = update_status s id db.
Proof.
  unfold update_status, with_commands. simpl. f_equal.
  rewrite map_map. apply map_ext. intros c.
  destruct (c_id c =? id) eqn:E; simpl; now rewrite E.
Qed.

(** C8 (mark_command_executed).  For the id of a stored command the request
    answers success and the row with that id has status executed afterwards,
    whatever its status was: pending, sent or executed; the rows with
    another id are as they were.  A second request for the same id answers
    the same success and leaves the store as the first one left it. *)
Theorem confirm_executed_idempotent (command_id : Z) (db : database) :
  In command_id (map c_id (commands db)) ->
  exists body db1,
    mark_command_executed command_id db = (Ok body, db1) /\
    ack_status body = "success" /\
    In command_id (map c_id (commands db1)) /\
    (forall c, In c (commands db) -> c_id c = command_id ->
               In (set_status executed c) (commands db1)) /\
    (forall c, In c (commands db1) -> c_id c = command_id ->
               c_status c = executed) /\
    (forall c, In c (commands db) -> c_id c <> command_id ->
               In c (commands db1)) /\
    mark_command_executed command_id db1 = (Ok body, db1).
Proof.
  intros Hin. unfold mark_command_executed.
  eexists. eexists. split; [reflexivity|]. split; [reflexivity|].
  split; [|split; [|split; [|split]]].
  - simpl. now rewrite map_c_id_update.
  - intros c Hc Hid. simpl. apply in_map_iff. exists c.
    apply Z.eqb_eq in Hid. now rewrite Hid.
  - intros c Hc Hid. simpl in Hc. apply in_map_iff in Hc as (c0 & Hc0 & _).
    destruct (c_id c0 =? command_id) eqn:E; subst c; [reflexivity|].
    apply Z.eqb_neq in E. contradiction.
  - intros c Hc Hid. simpl. apply in_map_iff. exists c.
    apply Z.eqb_neq in Hid. now rewrite Hid.
  - now rewrite update_status_twice.
Qed.

(** C5 (mark_command_executed, an id no command has).  On the empty commands
    table the request for command 7 answers the success body, not a 404,
    and the store is unchanged. *)
Theorem confirm_executed_unknown_id_answers_success :
  mark_command_executed 7 empty_db
  = (Ok (success "Command 7 marked as executed."), empty_db).
Proof. reflexivity. Qed.

(** ** The demo device *)

Lemma ltb_leb (a b : string) : String.ltb a b = true -> String.leb a b = true.
Proof.
  unfold String.ltb, String.leb. now destruct (String.compare a b).
Qed.

(** C10 (init_db).  On a store whose devices table is empty, [init_db]
    inserts exactly one row: device_id "demo-device-12345" with the preset
    name, OS version, phone number and battery level, and last_seen and
    created_at both equal to the time of the initialisation; the other
    tables are untouched.  The listing then shows that device although no
    check-in was served, and after the first check-in of another device_id,
    with a battery level the INSERT can bind (absent or within 64 bits), at
    a later created_at text the listing shows the demo device first and the
    checked-in device second.  A devices table that is not empty is left
    alone. *)
Theorem init_db_inserts_demo_device (now : datetime) (db : database) :
  (devices db = [] ->
   devices (init_db now db)
   = [demo_device (seq_devices db + 1) (now_utc now)] /\
   commands (init_db now db) = commands db /\
   sms_logs (init_db now db) = sms_logs db /\
   form_submissions (init_db now db) = form_submissions db /\
   global_settings (init_db now db) = global_settings db /\
   (forall now',
      get_devices now' (init_db now db)
      = (Ok [device_response now'
               (demo_device (seq_devices db + 1) (now_utc now))],
         init_db now db)) /\
   (forall data now1 now2,
      r_device_id data <> "demo-device-12345" ->
      binds_as_optional_integer (r_battery_level data) = true ->
      String.ltb (now_utc now) (now_utc now1) = true ->
      exists o1 o2,
        fst (get_devices now2
               (snd (register_device data now1 (init_db now db))))
        = Ok [o1; o2] /\
        o_device_id o1 = "demo-device-12345" /\
        o_device_id o2 = r_device_id data /\
        o_created_at o2 = now_utc now1)) /\
  (devices db <> [] -> init_db now db = db).
Proof.
  split.
  - intros E.
    assert (Hinit : init_db now db
                    = insert_device "demo-device-12345"
                        (Some "Test Device (Demo)") (Some "Android 14")
                        (Some "+919999999999") (Some 95)
                        (now_utc now) (now_utc now) db).
    { unfold init_db. now rewrite E. }
    rewrite Hinit. clear Hinit.
    assert (Hdev : devices
                     (insert_device "demo-device-12345"
                        (Some "Test Device (Demo)") (Some "Android 14")
                        (Some "+919999999999") (Some 95)
                        (now_utc now) (now_utc now) db)
                   = [demo_device (seq_devices db + 1) (now_utc now)]).
    { simpl. rewrite E. reflexivity. }
    split; [exact Hdev|]. repeat (split; [reflexivity|]).
    generalize dependent (insert_device "demo-device-12345"
                            (Some "Test Device (Demo)") (Some "Android 14")
                            (Some "+919999999999") (Some 95)
                            (now_utc now) (now_utc now) db).
    intros db0 Hdev. split.
    + intros now'. unfold get_devices. now rewrite Hdev.
    + intros data now1 now2 Hneq Hfits Hlt.
      unfold register_device, get_devices. rewrite Hdev. cbn [find].
      assert (Hf : String.eqb
                     (d_device_id
                        (demo_device (seq_devices db + 1) (now_utc now)))
                     (r_device_id data) = false).
      { apply String.eqb_neq. simpl. congruence. }
      rewrite Hf, Hfits. cbn [snd fst insert_device devices]. rewrite Hdev.
      cbn -[String.leb autoincrement now_utc].
      rewrite (ltb_leb _ _ Hlt).
      eexists. eexists. split; [reflexivity|]. now repeat split.
  - intros Hne. unfold init_db.
    destruct (devices db); [contradiction|reflexivity].
Qed.

(** * Further properties of the handlers *)

(** ** The order of texts *)

Lemma ascii_compare_trans (a b c : ascii) (o : comparison) :
  Ascii.compare a b = o -> Ascii.compare b c = o -> Ascii.compare a c = o.
Proof.
  unfold Ascii.compare. intros H1 H2. destruct o.
  - apply N.compare_eq_iff in H1, H2. apply N.compare_eq_iff. congruence.
  - rewrite N.compare_lt_iff in *. lia.
  - rewrite N.compare_gt_iff in *. lia.
Qed.

Lemma string_compare_trans (o : comparison) :
  forall a b c, String.compare a b = o -> String.compare b c = o ->
                String.compare a c = o.
Proof.
  induction a as [|x a IH]; intros [|y b] [|z c]; simpl; try congruence.
  destruct (Ascii.compare x y) eqn:Exy, (Ascii.compare y z) eqn:Eyz;
    intros H1 H2; subst; try congruence.
  all: try (rewrite (ascii_compare_trans _ _ _ _ Exy Eyz); eauto; fail).
  all: try (apply Ascii.compare_eq_iff in Exy; subst; rewrite Eyz; congruence).
  all: try (apply Ascii.compare_eq_iff in Eyz; subst; rewrite Exy; congruence).
Qed.

Lemma string_leb_trans (a b c : string) :
  String.leb a b = true -> String.leb b c = true -> String.leb a c = true.
Proof.
  unfold String.leb. intros H1 H2.
  destruct (String.compare a b) eqn:Eab; try discriminate;
  destruct (String.compare b c) eqn:Ebc; try discriminate.
  - apply String.compare_eq_iff in Eab. subst. now rewrite Ebc.
  - apply String.compare_eq_iff in Eab. subst. now rewrite Ebc.
  - apply String.compare_eq_iff in Ebc. subst. now rewrite Eab.
  - now rewrite (string_compare_trans Lt _ _ _ Eab Ebc).
Qed.

Lemma string_leb_false (a b : string) :
  String.leb a b = false -> String.leb b a = true.
Proof.
  intros H. destruct (String.leb_total a b) as [E|E]; congruence.
Qed.

(** ** ORDER BY *)

Lemma insert_desc_perm {row : Type} (column : row -> string) (r : row)
    (l : list row) :
  Permutation (insert_desc column r l) (r :: l).
Proof.
  induction l as [|x l IH]; simpl; [reflexivity|].
  destruct (String.leb (column x) (column r)); [reflexivity|].
  rewrite IH. apply perm_swap.
Qed.

Lemma order_by_desc_perm {row : Type} (column : row -> string)
    (l : list row) :
  Permutation (order_by_desc column l) l.
Proof.
  induction l as [|r l IH]; simpl; [reflexivity|].
  rewrite insert_desc_perm. now constructor.
Qed.

Lemma filter_rearranged {row : Type} (keep : row -> bool) (l l' : list row) :
  Permutation l l' -> Permutation (filter keep l) (filter keep l').
Proof.
  induction 1 as [|x l l' H IH|x y l|l l' l'' H1 IH1 H2 IH2]; simpl.
  - constructor.
  - destruct (keep x); [now constructor|exact IH].
  - destruct (keep x), (keep y); try reflexivity. apply perm_swap.
  - now transitivity (filter keep l').
Qed.

Lemma insert_desc_descending {row : Type} (column : row -> string) (r : row)
    (l : list row) :
  descending column l -> descending column (insert_desc column r l).
Proof.
  unfold descending. induction 1 as [|x l Hl IH Hx]; simpl.
  - constructor; constructor.
  - destruct (String.leb (column x) (column r)) eqn:E.
    + constructor; [now constructor|]. constructor; [exact E|].
      eapply Forall_impl; [|exact Hx]. intros b Hb. simpl in Hb.
      eapply string_leb_trans; eassumption.
    + constructor; [exact IH|].
      apply Forall_forall. intros b Hb.
      eapply Permutation_in in Hb; [|apply insert_desc_perm].
      destruct Hb as [<-|Hb]; [now apply string_leb_false|].
      rewrite Forall_forall in Hx. now apply Hx.
Qed.

Lemma order_by_desc_descending {row : Type} (column : row -> string)
    (l : list row) :
  descending column (order_by_desc column l).
Proof.
  induction l as [|r l IH]; simpl; [constructor|].
  now apply insert_desc_descending.
Qed.

Lemma descending_map {row item : Type} (f : row -> item)
    (column : row -> string) (column' : item -> string) (l : list row) :
  (forall r, column' (f r) = column r) ->
  descending column l -> descending column' (map f l).
Proof.
  unfold descending. intros Hf. induction 1 as [|x l Hl IH Hx]; simpl.
  - constructor.
  - constructor; [exact IH|]. apply Forall_map.
    eapply Forall_impl; [|exact Hx]. intros b Hb. simpl in *.
    now rewrite !Hf.
Qed.



(** (get_sms_logs, get_all_sms_logs.)  The global listing is a rearrangement
    of all stored SMS rows; the listing of a device is a rearrangement of
    the rows with that device_id, so a row of another device never shows in
    it; both are in descending order of received_at, and neither request
    writes to the store. *)
Theorem sms_listings_complete_and_sorted (device_id : string)
    (db : database) :
  exists items all,
    get_sms_logs device_id db = (Ok items, db) /\
    get_all_sms_logs db = (Ok all, db) /\
    Permutation all (sms_logs db) /\
    Permutation items
      (map sms_item_of
         (filter (fun s => String.eqb (s_device_id s) device_id) all)) /\
    descending s_received_at all /\
    descending sl_received_at items.
Proof.
  eexists. eexists. split; [reflexivity|]. split; [reflexivity|].
  split; [apply order_by_desc_perm|]. split; [|split].
  - apply Permutation_map. rewrite order_by_desc_perm.
    apply filter_rearranged. symmetry. apply order_by_desc_perm.
  - apply order_by_desc_descending.
  - apply (descending_map sms_item_of s_received_at); [reflexivity|].
    apply order_by_desc_descending.
Qed.

(** (get_form_submissions, get_all_form_submissions.)  The same for the
    form submissions, ordered by submitted_at. *)
Theorem form_listings_complete_and_sorted (device_id : string)
    (db : database) :
  exists items all,
    get_form_submissions device_id db = (Ok items, db) /\
    get_all_form_submissions db = (Ok all, db) /\
    Permutation all (form_submissions db) /\
    Permutation items
      (map form_item_of
         (filter (fun f => String.eqb (f_device_id f) device_id) all)) /\
    descending f_submitted_at all /\
    descending fs_submitted_at items.
Proof.
  eexists. eexists. split; [reflexivity|]. split; [reflexivity|].
  split; [apply order_by_desc_perm|]. split; [|split].
  - apply Permutation_map. rewrite order_by_desc_perm.
    apply filter_rearranged. symmetry. apply order_by_desc_perm.
  - apply order_by_desc_descending.
  - apply (descending_map form_item_of f_submitted_at); [reflexivity|].
    apply order_by_desc_descending.
Qed.

(** ** The settings *)

Lemma find_upsert (key key' value : string) (l : list (string * string)) :
  option_map snd (find (fun kv => String.eqb (fst kv) key) (upsert key' value l))
  = if String.eqb key key' then Some value
    else option_map snd (find (fun kv => String.eqb (fst kv) key) l).
Proof.
  induction l as [|[k v] l IH]; simpl.
  - rewrite (String.eqb_sym key' key). now destruct (String.eqb key key').
  - destruct (String.eqb k key') eqn:E; simpl.
    + apply String.eqb_eq in E. subst k.
      rewrite (String.eqb_sym key' key). now destruct (String.eqb key key').
    + destruct (String.eqb k key) eqn:E'; [|exact IH].
      apply String.eqb_eq in E'. subst k.
      now rewrite E.
Qed.

Lemma select_setting_upsert (key key' value : string) (db : database) :
  select_setting key (upsert_setting key' value db)
  = if String.eqb key key' then Some value else select_setting key db.
Proof. apply find_upsert. Qed.

Lemma select_setting_none (key : string) (db : database) :
  ~ In key (map fst (global_settings db)) -> select_setting key db = None.
Proof.
  unfold select_setting. intros Hnot.
  destruct (find _ (global_settings db)) as [kv|] eqn:E; [|reflexivity].
  apply find_some in E as [Hin Heq]. apply String.eqb_eq in Heq.
  exfalso. apply Hnot. rewrite <- Heq. now apply in_map.
Qed.

(** (update_sms_forward_config, get_sms_forward_config.)  Whatever the
    store held, after the forwarding number is set to [n] the getter
    answers [n]; the setter writes no table but global_settings and leaves
    the Telegram settings as they were.  With no forwarding number stored
    the getter answers the empty text. *)
Theorem sms_forward_config_round_trip (forward_number : string)
    (db : database) :
  (exists db',
     update_sms_forward_config forward_number db
     = (Ok (success "Forwarding number updated successfully."), db') /\
     get_sms_forward_config db'
     = (Ok [("forward_number", forward_number)], db') /\
     fst (get_telegram_config db') = fst (get_telegram_config db) /\
     devices db' = devices db /\ commands db' = commands db /\
     sms_logs db' = sms_logs db /\
     form_submissions db' = form_submissions db) /\
  (~ In "sms_forward_number" (map fst (global_settings db)) ->
   get_sms_forward_config db = (Ok [("forward_number", "")], db)).
Proof.
  split.
  - eexists. split; [reflexivity|]. split; [|split].
    + unfold get_sms_forward_config.
      now rewrite select_setting_upsert, String.eqb_refl.
    + unfold get_telegram_config. simpl.
      rewrite !select_setting_upsert. reflexivity.
    + now repeat split.
  - intros Hnot. unfold get_sms_forward_config.
    now rewrite select_setting_none.
Qed.

(** (update_telegram_config, get_telegram_config.)  After the bot token and
    the chat id are set the getter answers exactly those two values, and
    the forwarding number is as it was.  With neither key stored the getter
    answers the empty text for both. *)
Theorem telegram_config_round_trip (telegram_bot_token telegram_chat_id : string)
    (db : database) :
  (exists db',
     update_telegram_config telegram_bot_token telegram_chat_id db
     = (Ok (success "Telegram config updated successfully."), db') /\
     get_telegram_config db'
     = (Ok [("telegram_bot_token", telegram_bot_token);
            ("telegram_chat_id", telegram_chat_id)], db') /\
     fst (get_sms_forward_config db') = fst (get_sms_forward_config db) /\
     devices db' = devices db /\ commands db' = commands db /\
     sms_logs db' = sms_logs db /\
     form_submissions db' = form_submissions db) /\
  (~ In "telegram_bot_token" (map fst (global_settings db)) ->
   ~ In "telegram_chat_id" (map fst (global_settings db)) ->
   get_telegram_config db
   = (Ok [("telegram_bot_token", ""); ("telegram_chat_id", "")], db)).
Proof.
  split.
  - eexists. split; [reflexivity|]. split; [|split].
    + unfold get_telegram_config. simpl.
      rewrite !select_setting_upsert. reflexivity.
    + unfold get_sms_forward_config. simpl.
      rewrite !select_setting_upsert. simpl.
      now destruct (select_setting "sms_forward_number" db).
    + now repeat split.
  - intros H1 H2. unfold get_telegram_config. simpl.
    now rewrite !select_setting_none.
Qed.

(** ** Keys and rowids in the reachable stores *)

Lemma autoincrement_above_seq (seq : Z) (ids : list Z) :
  seq < autoincrement seq ids.
Proof.
  unfold autoincrement. induction ids as [|x ids IH]; simpl; lia.
Qed.

Lemma NoDup_snoc_autoincrement (seq : Z) (ids : list Z) :
  NoDup ids -> NoDup (ids ++ [autoincrement seq ids]).
Proof.
  intros H. apply NoDup_snoc; [exact H|].
  intros Hin. apply (autoincrement_fresh seq) in Hin. lia.
Qed.

Lemma bounded_snoc_autoincrement (seq : Z) (ids : list Z) :
  0 <= seq ->
  Forall (fun id => 1 <= id <= seq) ids ->
  Forall (fun id => 1 <= id <= autoincrement seq ids)
    (ids ++ [autoincrement seq ids]).
Proof.
  intros Hseq H. pose proof (autoincrement_above_seq seq ids) as Habove.
  apply Forall_app. split.
  - eapply Forall_impl; [|exact H]. simpl. intros id Hid. lia.
  - constructor; [lia|constructor].
Qed.

Lemma bounded_filtered {row : Type} (column : row -> Z) (keep : row -> bool)
    (P : Z -> Prop) (rows : list row) :
  Forall P (map column rows) -> Forall P (map column (filter keep rows)).
Proof.
  rewrite !Forall_forall. intros H id Hid.
  apply in_map_iff in Hid as (r & <- & Hr). apply filter_In in Hr as [Hr _].
  apply H. now apply in_map.
Qed.

Lemma upsert_keys (key value : string) (l : list (string * string)) (k : string) :
  In k (map fst (upsert key value l)) -> k = key \/ In k (map fst l).
Proof.
  induction l as [|[k0 v0] l IH]; simpl.
  - intros [<-|[]]. now left.
  - destruct (String.eqb k0 key); simpl; intros [<-|H]; auto.
    destruct (IH H); auto.
Qed.

Lemma upsert_keys_unique (key value : string) (l : list (string * string)) :
  NoDup (map fst l) -> NoDup (map fst (upsert key value l)).
Proof.
  induction l as [|[k0 v0] l IH]; simpl; intros H.
  - constructor; [easy|constructor].
  - inversion H as [|? ? Hk Hl]; subst.
    destruct (String.eqb k0 key) eqn:E; simpl; [now constructor|].
    constructor; [|now apply IH].
    intros Hin. apply upsert_keys in Hin as [->|Hin]; [|contradiction].
    now rewrite String.eqb_refl in E.
Qed.

Lemma map_d_id_update (f : device -> bool) (t : string) (l : list device) :
  map d_id (map (fun d => if f d then set_last_seen t d else d) l)
  = map d_id l.
Proof.
  rewrite map_map. apply map_ext. intros d. now destruct (f d).
Qed.

Ltac unfold_handlers :=
  unfold init_db, register_device, update_sms_forward_config,
    update_telegram_config, send_command, submit_form, log_sms,
    mark_command_executed, delete_device,
    delete_sms_log, delete_sms_log_by_id.

Lemma keys_unique_serve (now : datetime) (r : request) (db : database) :
  keys_unique db -> keys_unique (serve now r db).
Proof.
  intros (H1 & H2 & H3 & H4 & H5 & H6).
  assert (H : keys_unique db) by now repeat split.
  destruct r; simpl; unfold_handlers; simpl.
  - destruct (devices db) eqn:E; simpl; [|exact H].
    unfold keys_unique. simpl. rewrite E. simpl.
    repeat split; auto; repeat constructor; simpl; auto.
  - destruct (find _ (devices db)) eqn:E;
      [|destruct (binds_as_optional_integer _); [|exact H]];
      unfold keys_unique; simpl.
    + rewrite map_d_id_update, map_d_device_id_update. now repeat split.
    + rewrite !map_app. simpl. repeat split; auto.
      * now apply NoDup_snoc_autoincrement.
      * apply NoDup_snoc; [assumption|]. now apply find_device_none.
  - unfold keys_unique. simpl. repeat split; auto.
    now apply upsert_keys_unique.
  - unfold keys_unique. simpl. repeat split; auto.
    now repeat apply upsert_keys_unique.
  - unfold keys_unique. simpl. rewrite map_app. simpl.
    repeat split; auto. now apply NoDup_snoc_autoincrement.
  - unfold keys_unique. simpl. rewrite map_app. simpl.
    repeat split; auto. now apply NoDup_snoc_autoincrement.
  - unfold keys_unique. simpl. rewrite map_app. simpl.
    repeat split; auto. now apply NoDup_snoc_autoincrement.
  - destruct (get_pending_commands_cases device_id db) as [[r E]|[cl E]];
      rewrite E; simpl; [exact H|].
    unfold keys_unique. simpl. rewrite map_c_id_update. now repeat split.
  - unfold keys_unique. simpl. rewrite map_c_id_update. now repeat split.
  - destruct (count_devices device_id db =? 0); simpl; [exact H|].
    unfold keys_unique. simpl.
    repeat split; auto using filter_keeps_keys_distinct.
  - destruct (binds_as_integer sms_id); [|exact H].
    simpl. destruct (Z.of_nat _ =? 0); simpl; [exact H|].
    unfold keys_unique. simpl.
    repeat split; auto using filter_keeps_keys_distinct.
Qed.

Lemma ids_bounded_serve (now : datetime) (r : request) (db : database) :
  ids_bounded db -> ids_bounded (serve now r db).
Proof.
  intros (H1 & H2 & H3 & H4 & P1 & P2 & P3 & P4).
  assert (H : ids_bounded db) by now repeat split.
  destruct r; simpl; unfold_handlers; simpl.
  - destruct (devices db) eqn:E; simpl; [|exact H].
    unfold ids_bounded. simpl. rewrite E in *. simpl.
    pose proof (autoincrement_above_seq (seq_devices db) []) as Ha.
    repeat split; auto; try lia.
    constructor; [lia|constructor].
  - destruct (find _ (devices db)) eqn:E;
      [|destruct (binds_as_optional_integer _); [|exact H]];
      unfold ids_bounded; simpl.
    + rewrite map_d_id_update. now repeat split.
    + rewrite !map_app. simpl.
      pose proof (autoincrement_above_seq (seq_devices db)
                    (map d_id (devices db))) as Ha.
      repeat split; auto; try lia.
      now apply bounded_snoc_autoincrement.
  - exact H.
  - exact H.
  - unfold ids_bounded. simpl. rewrite map_app. simpl.
    pose proof (autoincrement_above_seq (seq_commands db)
                  (map c_id (commands db))) as Ha.
    repeat split; auto; try lia. now apply bounded_snoc_autoincrement.
  - unfold ids_bounded. simpl. rewrite map_app. simpl.
    pose proof (autoincrement_above_seq (seq_form_submissions db)
                  (map f_id (form_submissions db))) as Ha.
    repeat split; auto; try lia. now apply bounded_snoc_autoincrement.
  - unfold ids_bounded. simpl. rewrite map_app. simpl.
    pose proof (autoincrement_above_seq (seq_sms_logs db)
                  (map s_id (sms_logs db))) as Ha.
    repeat split; auto; try lia. now apply bounded_snoc_autoincrement.
  - destruct (get_pending_commands_cases device_id db) as [[r E]|[cl E]];
      rewrite E; simpl; [exact H|].
    unfold ids_bounded. simpl. rewrite map_c_id_update. now repeat split.
  - unfold ids_bounded. simpl. rewrite map_c_id_update. now repeat split.
  - destruct (count_devices device_id db =? 0); simpl; [exact H|].
    unfold ids_bounded. simpl.
    repeat split; auto using bounded_filtered.
  - destruct (binds_as_integer sms_id); [|exact H].
    simpl. destruct (Z.of_nat _ =? 0); simpl; [exact H|].
    unfold ids_bounded. simpl.
    repeat split; auto using bounded_filtered.
Qed.

Lemma seq_commands_serve (now : datetime) (r : request) (db : database) :
  seq_commands db <= seq_commands (serve now r db).
Proof.
  destruct r; simpl; unfold_handlers; simpl; try lia.
  - destruct (_ =? 0); simpl; lia.
  - destruct (find _ (devices db));
      [|destruct (binds_as_optional_integer _)]; simpl; lia.
  - pose proof (autoincrement_above_seq (seq_commands db)
                  (map c_id (commands db))). lia.
  - destruct (get_pending_commands_cases device_id db) as [[r E]|[cl E]];
      rewrite E; simpl; lia.
  - destruct (count_devices device_id db =? 0); simpl; lia.
  - destruct (binds_as_integer sms_id); [|simpl; lia].
    simpl. destruct (Z.of_nat _ =? 0); simpl; lia.
Qed.

Lemma seq_commands_serve_all (trace : list (datetime * request)) :
  forall db, seq_commands db <= seq_commands (serve_all trace db).
Proof.
  induction trace as [|[now r] trace IH]; intros db; simpl; [lia|].
  etransitivity; [apply (seq_commands_serve now r)|apply IH].
Qed.

(** (init_db and every handler that writes.)  In every store the server
    can reach no two rows of a table share its primary key, and no two
    devices share a device_id: the INSERT statements of the handlers never
    meet a key that is taken. *)
Theorem reachable_keys_unique (db : database) :
  reachable db -> keys_unique db.
Proof.
  induction 1 as [now|now r db _ IH].
  - unfold init_db, keys_unique. simpl.
    repeat split; repeat constructor; simpl; auto.
  - now apply keys_unique_serve.
Qed.

(** (send_command, AUTOINCREMENT.)  In every reachable store the rowids are
    positive and not above the table's sequence counter; and a command
    enqueued after any further requests, deletions of devices with their
    commands included, gets an id larger than the id of every command
    stored now: ids are never used twice. *)
Theorem command_ids_never_reused (db : database)
    (trace : list (datetime * request)) (data : SendCommandRequest)
    (now : datetime) :
  reachable db ->
  ids_bounded db /\
  exists c,
    commands (snd (send_command data now (serve_all trace db)))
    = commands (serve_all trace db) ++ [c] /\
    c_status c = pending /\
    Forall (fun old => c_id old < c_id c) (commands db) /\
    Forall (fun old => c_id old < c_id c) (commands (serve_all trace db)).
Proof.
  intros Hr.
  assert (Hb : ids_bounded db).
  { induction Hr as [now0|now0 r db _ IH].
    - apply (ids_bounded_serve now0 Startup empty_db).
      unfold ids_bounded. simpl. repeat split; (constructor || lia).
    - now apply ids_bounded_serve. }
  split; [exact Hb|].
  eexists. split; [reflexivity|]. split; [reflexivity|]. simpl.
  pose proof (seq_commands_serve_all trace db) as Hseq.
  pose proof (autoincrement_above_seq (seq_commands (serve_all trace db))
                (map c_id (commands (serve_all trace db)))) as Ha.
  destruct Hb as (_ & Hc & _). split.
  - rewrite Forall_map in Hc. eapply Forall_impl; [|exact Hc].
    simpl. intros old Hold. lia.
  - apply Forall_forall. intros old Hold.
    apply autoincrement_fresh. now apply in_map.
Qed.

(** ** SMS logs and form submissions *)

Lemma order_by_desc_length {row : Type} (column : row -> string)
    (l : list row) :
  List.length (order_by_desc column l) = List.length l.
Proof. apply Permutation_length, order_by_desc_perm. Qed.

Lemma order_by_desc_in {row : Type} (column : row -> string) (l : list row)
    (r : row) :
  In r l -> In r (order_by_desc column l).
Proof.
  intros H. eapply Permutation_in; [symmetry; apply order_by_desc_perm|exact H].
Qed.

(** (log_sms, get_sms_logs.)  Logging an SMS always answers success and
    appends one row with a rowid larger than every stored one; the listing
    of that device then has one entry more and contains the new SMS with
    its sender, body and time; the listing of every other device, and every
    other table, is as before. *)
Theorem log_sms_round_trip (device_id sender message_body : string)
    (now : datetime) (db : database) :
  exists db' id items,
    log_sms device_id sender message_body now db
    = (Ok (success "SMS logged successfully."), db') /\
    sms_logs db'
    = sms_logs db
      ++ [mk_sms_log id device_id sender message_body (strftime now)] /\
    Forall (fun s => s_id s < id) (sms_logs db) /\
    get_sms_logs device_id db' = (Ok items, db') /\
    In (mk_sms_item id sender message_body (strftime now)) items /\
    List.length items
    = S (List.length
           (filter (fun s => String.eqb (s_device_id s) device_id)
              (sms_logs db))) /\
    (forall other, other <> device_id ->
       fst (get_sms_logs other db') = fst (get_sms_logs other db)) /\
    devices db' = devices db /\ commands db' = commands db /\
    form_submissions db' = form_submissions db /\
    global_settings db' = global_settings db.
Proof.
  eexists. eexists. eexists. split; [reflexivity|]. split; [reflexivity|].
  split.
  { apply Forall_forall. intros s Hs. apply autoincrement_fresh.
    now apply in_map. }
  split; [reflexivity|].
  unfold get_sms_logs, insert_sms_log. cbn [fst snd sms_logs].
  split; [|split; [|split]].
  - apply (in_map sms_item_of
             _ (mk_sms_log _ device_id sender message_body (strftime now))).
    apply order_by_desc_in. rewrite filter_app. apply in_or_app. right.
    simpl. rewrite String.eqb_refl. now left.
  - rewrite length_map, order_by_desc_length, filter_app, length_app.
    simpl. rewrite String.eqb_refl. simpl. lia.
  - intros other Hneq. rewrite filter_app. simpl.
    apply String.eqb_neq in Hneq. rewrite String.eqb_sym in Hneq.
    rewrite Hneq. now rewrite app_nil_r.
  - now repeat split.
Qed.

(** (submit_form, get_form_submissions.)  The same for a form submission:
    one fresh row, found in the listing of its device, no other listing or
    table changed. *)
Theorem submit_form_round_trip (device_id custom_data : string)
    (now : datetime) (db : database) :
  exists db' id items,
    submit_form device_id custom_data now db
    = (Ok (success "Form data submitted."), db') /\
    form_submissions db'
    = form_submissions db
      ++ [mk_form_submission id device_id custom_data (strftime now)] /\
    Forall (fun f => f_id f < id) (form_submissions db) /\
    get_form_submissions device_id db' = (Ok items, db') /\
    In (mk_form_item id custom_data (strftime now)) items /\
    List.length items
    = S (List.length
           (filter (fun f => String.eqb (f_device_id f) device_id)
              (form_submissions db))) /\
    (forall other, other <> device_id ->
       fst (get_form_submissions other db')
       = fst (get_form_submissions other db)) /\
    devices db' = devices db /\ commands db' = commands db /\
    sms_logs db' = sms_logs db /\
    global_settings db' = global_settings db.
Proof.
  eexists. eexists. eexists. split; [reflexivity|]. split; [reflexivity|].
  split.
  { apply Forall_forall. intros f Hf. apply autoincrement_fresh.
    now apply in_map. }
  split; [reflexivity|].
  unfold get_form_submissions, insert_form_submission.
  cbn [fst snd form_submissions].
  split; [|split; [|split]].
  - apply (in_map form_item_of
             _ (mk_form_submission _ device_id custom_data (strftime now))).
    apply order_by_desc_in. rewrite filter_app. apply in_or_app. right.
    simpl. rewrite String.eqb_refl. now left.
  - rewrite length_map, order_by_desc_length, filter_app, length_app.
    simpl. rewrite String.eqb_refl. simpl. lia.
  - intros other Hneq. rewrite filter_app. simpl.
    apply String.eqb_neq in Hneq. rewrite String.eqb_sym in Hneq.
    rewrite Hneq. now rewrite app_nil_r.
  - now repeat split.
Qed.

Lemma rowcount_zero (sms_id : Z) (l : list sms_log) :
  List.length (filter (fun s => s_id s =? sms_id) l) = 0%nat <->
  ~ In sms_id (map s_id l).
Proof.
  induction l as [|s l IH]; simpl.
  - split; [intros _ []|reflexivity].
  - destruct (s_id s =? sms_id) eqn:E; simpl.
    + apply Z.eqb_eq in E. split; [discriminate|].
      intros H. exfalso. apply H. now left.
    + apply Z.eqb_neq in E. rewrite IH. split.
      * intros H [H'|H']; [exact (E H')|exact (H H')].
      * intros H H'. apply H. now right.
Qed.

Lemma delete_one_row (sms_id : Z) (l : list sms_log) :
  NoDup (map s_id l) -> In sms_id (map s_id l) ->
  S (List.length (filter (fun s => negb (s_id s =? sms_id)) l))
  = List.length l.
Proof.
  induction l as [|s l IH]; simpl; [easy|].
  intros Hnd Hin. inversion Hnd as [|? ? Hs Hl]; subst.
  destruct (s_id s =? sms_id) eqn:E; simpl.
  - apply Z.eqb_eq in E. f_equal. rewrite E in Hs.
    clear -Hs. induction l as [|x l IH]; simpl; [reflexivity|].
    simpl in Hs. destruct (s_id x =? sms_id) eqn:Ex; simpl.
    + apply Z.eqb_eq in Ex. exfalso. auto.
    + f_equal. apply IH. auto.
  - apply Z.eqb_neq in E. f_equal. apply IH; [assumption|].
    destruct Hin; [contradiction|assumption].
Qed.

(** (delete_sms_log.)  With the rowids of sms_logs distinct, as the primary
    key makes them, and an sms_id that fits 64 bits: deleting a stored id
    answers success and removes exactly that one row, every other row and
    table staying; deleting an id that is not stored raises the 404
    HTTPException and the store is what it was.  An sms_id that does not
    fit 64 bits cannot be bound: the request ends in the uncaught
    exception and the store is what it was. *)
Theorem delete_sms_log_removes_one (sms_id : Z) (db : database) :
  NoDup (map s_id (sms_logs db)) ->
  (binds_as_integer sms_id = true ->
   In sms_id (map s_id (sms_logs db)) ->
   exists db',
     delete_sms_log sms_id db
     = (Ok (success
              (String.append "SMS log "
                 (String.append (str sms_id) " deleted."))), db') /\
     (forall s, In s (sms_logs db') <->
                In s (sms_logs db) /\ s_id s <> sms_id) /\
     S (List.length (sms_logs db')) = List.length (sms_logs db) /\
     devices db' = devices db /\ commands db' = commands db /\
     form_submissions db' = form_submissions db /\
     global_settings db' = global_settings db) /\
  (binds_as_integer sms_id = true ->
   ~ In sms_id (map s_id (sms_logs db)) ->
   delete_sms_log sms_id db
   = (HTTPException 404
        (String.append "SMS log "
           (String.append (str sms_id) " not found.")), db)) /\
  (binds_as_integer sms_id = false ->
   delete_sms_log sms_id db = (Unhandled, db)).
Proof.
  intros Hnd. unfold delete_sms_log, delete_sms_log_by_id.
  split; [|split].
  - intros -> Hin.
    destruct (Z.of_nat _ =? 0) eqn:E.
    + apply Z.eqb_eq in E.
      assert (E' : List.length
                     (filter (fun s => s_id s =? sms_id) (sms_logs db))
                   = 0%nat) by lia.
      apply rowcount_zero in E'. contradiction.
    + eexists. split; [reflexivity|]. simpl. split; [|split].
      * intros s. rewrite filter_In, negb_true_iff, Z.eqb_neq. reflexivity.
      * now apply delete_one_row.
      * now repeat split.
  - intros -> Hnot. apply rowcount_zero in Hnot. now rewrite Hnot.
  - now intros ->.
Qed.

(** ** Enqueue, deliver and their neighbours *)

Lemma json_dumps_injective (a b : json) : json_dumps a = json_dumps b -> a = b.
Proof.
  intros H. apply (f_equal json_loads) in H.
  rewrite !loads_dumps in H. now injection H.
Qed.

(** (send_command, get_pending_commands.)  In a reachable store, enqueueing
    a command always answers success, whether or not a device with that
    device_id is registered, and writes no table but commands.  When the
    commands then pending for that device_id, the new one included, are no
    more than the UPDATE can bind, the next delivery returns, in order, an
    entry for each command that was pending before, with its id, type and
    payload, and last the new command with its type and exactly the payload
    that was enqueued. *)
Theorem send_command_then_delivered (data : SendCommandRequest)
    (now : datetime) (db : database) :
  reachable db ->
  Z.of_nat (S (List.length (select_commands (q_device_id data) pending db)))
  <= SQLITE_MAX_VARIABLE_NUMBER ->
  exists db1 id earlier db2,
    send_command data now db
    = (Ok (success "Command sent and pending."), db1) /\
    devices db1 = devices db /\ sms_logs db1 = sms_logs db /\
    form_submissions db1 = form_submissions db /\
    global_settings db1 = global_settings db /\
    Forall (fun c => c_id c < id) (commands db) /\
    get_pending_commands (q_device_id data) db1
    = (Ok (earlier
             ++ [mk_command_item id (q_command_type data)
                   (q_command_data data)]), db2) /\
    Forall2 delivers (select_commands (q_device_id data) pending db) earlier.
Proof.
  intros Hr Hlimit.
  pose proof (payloads_ok_serve now (SendCommand data) db
                (reachable_payloads_ok db Hr)) as Hp.
  simpl in Hp.
  assert (Hsel : select_commands (q_device_id data) pending
                   (insert_command (q_device_id data) (q_command_type data)
                      (json_dumps (q_command_data data)) (strftime now) db)
                 = select_commands (q_device_id data) pending db
                   ++ [mk_command
                         (autoincrement (seq_commands db)
                            (map c_id (commands db)))
                         (q_device_id data) (q_command_type data)
                         (json_dumps (q_command_data data)) pending
                         (strftime now)]).
  { unfold select_commands. cbn [commands insert_command].
    rewrite filter_app. simpl. now rewrite String.eqb_refl. }
  destruct (get_pending_commands_dumped (q_device_id data) _ Hp)
    as (items & Hitems & Hcall).
  { rewrite Hsel, length_app. simpl. lia. }
  rewrite Hsel in Hitems.
  apply Forall2_app_inv_l in Hitems as (l1 & l2 & H1 & H2 & ->).
  inversion H2 as [|c i lc li Hd Hnil]; subst. inversion Hnil; subst.
  destruct Hd as (Hid & Hty & Hdata). destruct i as [iid ity idata].
  simpl in Hid, Hty, Hdata. apply json_dumps_injective in Hdata. subst.
  exists (snd (send_command data now db)),
    (autoincrement (seq_commands db) (map c_id (commands db))), l1.
  eexists.
  split; [reflexivity|]. repeat (split; [reflexivity|]). split.
  { apply Forall_forall. intros c Hc. apply autoincrement_fresh.
    now apply in_map. }
  split; [exact Hcall|exact H1].
Qed.

Lemma collect_item_ids (commands : list command) :
  forall command_list command_ids command_list' command_ids',
  collect commands command_list command_ids
  = Some (command_list', command_ids') ->
  map i_id command_list' = map i_id command_list ++ map c_id commands.
Proof.
  induction commands as [|c rest IH]; simpl;
    intros command_list command_ids command_list' command_ids' H.
  - injection H as <- _. now rewrite app_nil_r.
  - destruct (json_loads (c_command_data c)); [|discriminate].
    apply IH in H. rewrite H, map_app, <- app_assoc. reflexivity.
Qed.

Lemma get_pending_commands_ids (device_id : string) (db : database)
    (items : list command_item) :
  fst (get_pending_commands device_id db) = Ok items ->
  map i_id items = map c_id (select_commands device_id pending db).
Proof.
  unfold get_pending_commands, fetch_pending.
  destruct (collect _ [] []) as [[command_list command_ids]|] eqn:E;
    [|discriminate].
  apply collect_item_ids in E. simpl in E.
  destruct (mark_sent command_ids db); simpl; [|discriminate].
  intros [= <-]. exact E.
Qed.

Lemma schema_ok_dispatch_all (ops : list dispatcher_op) :
  forall db, schema_ok db -> schema_ok (dispatch_all ops db).
Proof.
  induction ops as [|op ops IH]; intros db H; [exact H|].
  apply (IH (dispatch op db)). now apply schema_ok_dispatch.
Qed.

(** (get_pending_commands after send_command, get_pending_commands and
    mark_command_executed, served one at a time.)  A command that is sent
    or executed is never delivered again: from a store that meets the key
    constraints, after any sequence of enqueue, deliver and confirm
    operations, no delivery for any device returns its id. *)
Theorem delivered_at_most_once (db : database) (c : command)
    (ops : list dispatcher_op) (device_id : string)
    (items : list command_item) :
  schema_ok db ->
  In c (commands db) ->
  c_status c <> pending ->
  fst (get_pending_commands device_id (dispatch_all ops db)) = Ok items ->
  ~ In (c_id c) (map i_id items).
Proof.
  intros Hs Hc Hst Hcall Hin.
  apply get_pending_commands_ids in Hcall. rewrite Hcall in Hin.
  apply in_map_iff in Hin as (r & Hid & Hr).
  apply select_commands_in in Hr as (Hr & _ & Hpending).
  destruct (dispatch_all_advances ops db Hs) as (kept & added & E & Hadv).
  assert (Hc' : exists c', In c' kept /\ advances c c').
  { clear -Hc Hadv. induction Hadv as [|x y l l' Hxy _ IH]; [contradiction|].
    destruct Hc as [->|Hc].
    - exists y. split; [now left|assumption].
    - destruct (IH Hc) as (c' & Hin & Ha). exists c'. split; [now right|assumption]. }
  destruct Hc' as (c' & Hin' & Hid' & _ & _ & _ & _ & Hrank).
  destruct (schema_ok_dispatch_all ops db Hs) as [Hnd _].
  assert (Heq : r = c').
  { apply (key_identifies_row _ _ c_id _ Hnd); [exact Hr| |congruence].
    rewrite E. apply in_or_app. now left. }
  subst r. rewrite Hpending in Hrank.
  destruct (c_status c); simpl in Hrank; [congruence|lia|lia].
Qed.

(** (get_pending_commands.)  A delivery for one device leaves the commands
    of every other device, whatever their status, and all other tables
    untouched. *)
Theorem delivery_leaves_other_devices (device_id : string) (db : database) :
  schema_ok db ->
  exists response db',
    get_pending_commands device_id db = (response, db') /\
    (forall c, In c (commands db) -> c_device_id c <> device_id ->
               In c (commands db')) /\
    devices db' = devices db /\ sms_logs db' = sms_logs db /\
    form_submissions db' = form_submissions db /\
    global_settings db' = global_settings db.
Proof.
  intros [Hnd _].
  destruct (get_pending_commands_cases device_id db) as [[r E]|[cl E]];
    rewrite E.
  - eexists. eexists. split; [reflexivity|]. now repeat split.
  - eexists. eexists. split; [reflexivity|]. split; [|now repeat split].
    intros c Hc Hdev. simpl. apply in_map_iff. exists c. split; [|exact Hc].
    destruct (id_in (c_id c) _) eqn:Hid; [exfalso|reflexivity].
    apply id_in_map_str, in_map_iff in Hid as (c0 & Hid & Hsel).
    apply select_commands_in in Hsel as (Hin0 & Hdev0 & _).
    apply Hdev. rewrite <- Hdev0. f_equal.
    now apply (key_identifies_row _ _ c_id _ Hnd).
Qed.

Lemma collect_fails (commands : list command) :
  Exists (fun c => json_loads (c_command_data c) = None) commands ->
  forall command_list command_ids,
    collect commands command_list command_ids = None.
Proof.
  induction 1 as [c rest Hc|c rest _ IH]; intros command_list command_ids;
    simpl.
  - now rewrite Hc.
  - destruct (json_loads (c_command_data c)); [apply IH|reflexivity].
Qed.

(** (get_pending_commands, json.loads raising.)  When the payload of one
    pending command of the device is a text that json.loads rejects, the
    request ends in the uncaught exception, returns no command and marks
    none: the store is exactly what it was. *)
Theorem undecodable_payload_blocks_delivery (device_id : string)
    (db : database) :
  Exists (fun c => json_loads (c_command_data c) = None)
    (select_commands device_id pending db) ->
  get_pending_commands device_id db = (Unhandled, db).
Proof.
  intros H. unfold get_pending_commands, fetch_pending.
  now rewrite collect_fails.
Qed.

(** ** Start-up and presence *)

(** (init_db.)  Right after [init_db] the devices table is not empty, and
    running [init_db] once more, at any time, changes nothing: a restart
    does not add a second demo device. *)
Theorem init_db_idempotent (now now' : datetime) (db : database) :
  devices (init_db now db) <> [] /\
  init_db now' (init_db now db) = init_db now db.
Proof.
  assert (H : devices (init_db now db) <> []).
  { unfold init_db. destruct (devices db) as [|d l] eqn:E; simpl.
    - rewrite E. discriminate.
    - rewrite E. discriminate. }
  split; [exact H|].
  unfold init_db at 1. destruct (devices (init_db now db)); [contradiction|].
  reflexivity.
Qed.






(** ** Two polls that overlap *)

(** An invocation that runs its two steps with nothing in between is the
    handler. *)
Lemma poll_steps_are_the_handler (device_id : string) (other : poll)
    (db : database) :
  run_polls [First; First] (Polling device_id) other db
  = (Returned (fst (get_pending_commands device_id db)), other,
     snd (get_pending_commands device_id db)).
Proof.
  unfold run_polls, poll_step, get_pending_commands.
  destruct (fetch_pending device_id db) as [[command_list command_ids]|];
    [|reflexivity].
  destruct (mark_sent command_ids db); reflexivity.
Qed.

Lemma mark_sent_within_limit (command_ids : list string) (db : database) :
  Z.of_nat (List.length command_ids) <= SQLITE_MAX_VARIABLE_NUMBER ->
  exists db', mark_sent command_ids db = Some db'.
Proof.
  intros Hlimit. unfold mark_sent.
  destruct command_ids as [|p ps]; [eexists; reflexivity|].
  destruct (_ >? _) eqn:E; [|eexists; reflexivity].
  rewrite Z.gtb_ltb in E. apply Z.ltb_lt in E. lia.
Qed.

(** When the second poll runs its SELECT before the first has run its
    UPDATE, both return the same entries: every pending command is
    delivered twice. *)
Lemma overlapping_polls_return_the_same (device_id : string)
    (db : database) :
  payloads_ok db ->
  Z.of_nat (List.length (select_commands device_id pending db))
  <= SQLITE_MAX_VARIABLE_NUMBER ->
  exists items db',
    run_polls [First; Second; First; Second]
      (Polling device_id) (Polling device_id) db
    = (Returned (Ok items), Returned (Ok items), db') /\
    Forall2 delivers (select_commands device_id pending db) items.
Proof.
  intros Hp Hlimit.
  assert (Hf : exists items,
             fetch_pending device_id db
             = Some (items,
                     map str (map c_id (select_commands device_id pending db)))
             /\ Forall2 delivers (select_commands device_id pending db) items).
  { unfold fetch_pending.
    destruct (collect_dumped _
                (select_commands_dumped device_id pending db Hp) [] [])
      as (items & -> & Hitems).
    exists items. now split. }
  destruct Hf as (items & Hf & Hitems).
  assert (Hlen : Z.of_nat
                   (List.length
                      (map str
                         (map c_id (select_commands device_id pending db))))
                 <= SQLITE_MAX_VARIABLE_NUMBER)
    by now rewrite !length_map.
  destruct (mark_sent_within_limit _ db Hlen) as (db1 & H1).
  destruct (mark_sent_within_limit _ db1 Hlen) as (db2 & H2).
  exists items, db2. split; [|exact Hitems].
  unfold run_polls, poll_step.
  rewrite Hf; cbv beta iota. rewrite Hf; cbv beta iota.
  rewrite H1; cbv beta iota. rewrite H2. reflexivity.
Qed.

(** ** The try block on any stored value *)

(** On texts the loop is the one of [get_devices]. *)
Lemma presence_loop_texts (now : datetime) (texts : list string) :
  presence_loop now (map StoredText texts) = Some (map (is_online now) texts).
Proof.
  induction texts as [|s texts IH]; simpl; [reflexivity|].
  now rewrite IH.
Qed.

(** A value that is not a text ends the loop, wherever it stands. *)
Lemma presence_loop_not_text (now : datetime) (values : list datetime_value) :
  Exists (fun v => forall s, v <> StoredText s) values ->
  presence_loop now values = None.
Proof.
  induction 1 as [v rest Hv|v rest _ IH]; simpl.
  - destruct v as [n| |s|]; try reflexivity. now destruct (Hv s).
  - destruct (try_last_seen_dt now v); [|reflexivity]. now rewrite IH.
Qed.

(** The listing of [get_devices] is this loop run on the rows in listing
    order, every last_seen being a text. *)
Lemma get_devices_is_presence_loop (now : datetime) (db : database) :
  exists listing,
    get_devices now db = (Ok listing, db) /\
    presence_loop now
      (map (fun d => StoredText (d_last_seen d))
         (order_by_created_at (devices db)))
    = Some (map o_is_online listing).
Proof.
  eexists. split; [reflexivity|].
  rewrite <- (map_map d_last_seen StoredText), presence_loop_texts.
  now rewrite !map_map.
Qed.

End Backend.

(** * The theorems at work on concrete stores

    The statements above are instantiated with the codec of [Utc]: the
    clock reads 2023-11-14 22:13:20 UTC, which is 1700000000 seconds after
    the epoch. *)

Lemma utc_loads_dumps (j : Utc.json) :
  Utc.json_loads (Utc.json_dumps j) = Some j.
Proof.
  unfold Utc.json_loads, Utc.json_dumps.
  now rewrite numeric_affinity_str, String.eqb_refl.
Qed.

(** One command enqueued for "device-A" after the start of the server: the
    first delivery returns one entry, the second none. *)
Lemma deliver_pending_twice_witness :
  let db :=
    serve Utc.json Utc.json_dumps Utc.json_loads Utc.strftime
      variable_limit_since_3_32 1700000000000000
      (SendCommand Utc.json (mk_SendCommandRequest Utc.json "device-A" "lock" 5))
      (init_db Utc.strftime 1700000000000000 empty_db) in
  reachable Utc.json Utc.json_dumps Utc.json_loads Utc.strftime
    variable_limit_since_3_32 db /\
  Z.of_nat (List.length (select_commands "device-A" pending db))
  <= variable_limit_since_3_32 /\
  exists items db1,
    get_pending_commands Utc.json Utc.json_loads variable_limit_since_3_32
      "device-A" db
    = (Ok items, db1) /\
    List.length items = 1%nat /\
    get_pending_commands Utc.json Utc.json_loads variable_limit_since_3_32
      "device-A" db1
    = (Ok [], db1).
Proof.
  intros db.
  assert (Hr : reachable Utc.json Utc.json_dumps Utc.json_loads Utc.strftime
                 variable_limit_since_3_32 db)
    by apply reachable_serve, reachable_init.
  assert (Hlimit : Z.of_nat (List.length (select_commands "device-A" pending db))
                   <= variable_limit_since_3_32)
    by (vm_compute; discriminate).
  split; [exact Hr|]. split; [exact Hlimit|].
  destruct (deliver_pending_twice Utc.json Utc.json_dumps Utc.json_loads
              utc_loads_dumps Utc.strftime variable_limit_since_3_32
              "device-A" db Hr Hlimit)
    as (items & db1 & H1 & _ & Hlen & H2 & _).
  exists items, db1. split; [exact H1|]. split; [exact Hlen|exact H2].
Defined.

(** The demo device seen at 22:13:20, listed 19.999 seconds later. *)
Lemma is_online_threshold_witness :
  let d := demo_device 1 "2023-11-14 22:13:20" in
  let db := mk_database [d] [] [] [] [] 1 0 0 0 in
  let now := 1700000019999000 in
  get_devices Utc.strptime now db
  = (Ok [device_response Utc.strptime now d], db) /\
  Utc.strptime (d_last_seen d) = Some 1700000000000000 /\
  (o_is_online (device_response Utc.strptime now d) = true
   <-> now - 1700000000000000 < 20 * 1000000).
Proof.
  intros d db now.
  assert (Hcall : get_devices Utc.strptime now db
                  = (Ok [device_response Utc.strptime now d], db))
    by reflexivity.
  assert (Hparse : Utc.strptime (d_last_seen d) = Some 1700000000000000)
    by reflexivity.
  split; [exact Hcall|]. split; [exact Hparse|].
  destruct (is_online_threshold Utc.strptime now db _ _
              (device_response Utc.strptime now d) Hcall (or_introl eq_refl))
    as (d' & [Hd|[]] & _ & Ht).
  subst d'. exact (proj1 (Ht _ Hparse)).
Defined.


(** A first check-in of "device-A", and a check-in of the demo device under
    another name. *)
Lemma check_in_creates_or_touches_last_seen_witness :
  let db := init_db Utc.strftime 1700000000000000 empty_db in
  let first :=
    mk_DeviceRegisterRequest "device-A" (Some "Pixel") None None (Some 80) in
  let again :=
    mk_DeviceRegisterRequest "demo-device-12345" (Some "Renamed") None None
      None in
  ~ In (r_device_id first) (map d_device_id (devices db)) /\
  binds_as_optional_integer (r_battery_level first) = true /\
  In (r_device_id again) (map d_device_id (devices db)) /\
  count_devices "device-A"
    (snd (register_device Utc.strftime first 1700000005000000 db)) = 1 /\
  map d_device_name
    (devices (snd (register_device Utc.strftime again 1700000005000000 db)))
  = [Some "Test Device (Demo)"] /\
  map d_last_seen
    (devices (snd (register_device Utc.strftime again 1700000005000000 db)))
  = ["2023-11-14 22:13:25"].
Proof.
  intros db first again.
  assert (Hnew : ~ In (r_device_id first) (map d_device_id (devices db))).
  { simpl. intros [H|[]]. discriminate H. }
  assert (Hfits : binds_as_optional_integer (r_battery_level first) = true)
    by reflexivity.
  assert (Hold : In (r_device_id again) (map d_device_id (devices db))).
  { left. reflexivity. }
  split; [exact Hnew|]. split; [exact Hfits|]. split; [exact Hold|].
  destruct (check_in_creates_or_touches_last_seen Utc.strftime first
              1700000005000000 db)
    as (r1 & db1 & Hcall1 & _ & _ & _ & _ & Hcreate & _).
  destruct (check_in_creates_or_touches_last_seen Utc.strftime again
              1700000005000000 db)
    as (r2 & db2 & Hcall2 & _ & _ & _ & _ & _ & _ & Htouch).
  rewrite Hcall1, Hcall2. cbn [snd].
  split; [exact (proj2 (proj2 (Hcreate Hnew Hfits)))|].
  destruct (Htouch Hold) as [_ Hrows].
  change (devices db) with [demo_device 1 "2023-11-14 22:13:20"] in Hrows.
  inversion Hrows as [|d d' l l' Hd Hl E1 E2]. subst.
  inversion Hl. subst.
  destruct Hd as (_ & _ & Hname & _ & _ & _ & _ & Hseen).
  cbn [map]. rewrite Hname, Hseen. split; reflexivity.
Defined.

(** Deleting "device-A" with one command, one SMS and one form, and
    deleting a device that is not stored. *)
Lemma delete_device_cascades_or_not_found_witness :
  let db :=
    mk_database
      [mk_device 1 "device-A" None None None None "2023-11-14 22:13:20"
         "2023-11-14 22:13:20"]
      [mk_command 1 "device-A" "lock" "5" sent "2023-11-14 22:13:21"]
      [mk_sms_log 1 "device-A" "+4912345" "hello" "2023-11-14 22:13:22"]
      [mk_form_submission 1 "device-A" "name=x" "2023-11-14 22:13:23"]
      [] 1 1 1 1 in
  In "device-A" (map d_device_id (devices db)) /\
  ~ In "device-B" (map d_device_id (devices db)) /\
  (exists db',
     delete_device "device-A" db
     = (Ok (success "Device device-A and all associated data deleted."), db')
     /\ ~ In "device-A" (map d_device_id (devices db'))
     /\ ~ In "device-A" (map c_device_id (commands db'))
     /\ ~ In "device-A" (map s_device_id (sms_logs db'))
     /\ ~ In "device-A" (map f_device_id (form_submissions db'))) /\
  delete_device "device-B" db
  = (HTTPException 404 "Device device-B not found.", db).
Proof.
  intros db.
  assert (Hin : In "device-A" (map d_device_id (devices db)))
    by (left; reflexivity).
  assert (Hnot : ~ In "device-B" (map d_device_id (devices db))).
  { simpl. intros [H|[]]. discriminate H. }
  split; [exact Hin|]. split; [exact Hnot|]. split.
  - destruct (proj1 (delete_device_cascades_or_not_found "device-A" db) Hin)
      as (db' & Hcall & Hd & Hc & Hs & Hf & _).
    exists db'. split; [exact Hcall|]. now repeat split.
  - exact (proj2 (delete_device_cascades_or_not_found "device-B" db) Hnot).
Defined.

(** Three commands in the three states, then a delivery, a confirmation and
    an enqueue. *)
Lemma status_never_moves_backward_witness :
  let db :=
    mk_database []
      [mk_command 1 "device-A" "lock" "5" pending "2023-11-14 22:13:20";
       mk_command 2 "device-A" "ring" "6" sent "2023-11-14 22:13:21";
       mk_command 3 "device-A" "wipe" "7" executed "2023-11-14 22:13:22"]
      [] [] [] 0 3 0 0 in
  let ops :=
    [DeliverPending Utc.json "device-A";
     ConfirmExecuted Utc.json 1;
     Enqueue Utc.json (mk_SendCommandRequest Utc.json "device-A" "lock" 8)
       1700000000000000] in
  schema_ok db /\
  exists kept added,
    commands
      (dispatch_all Utc.json Utc.json_dumps Utc.json_loads Utc.strftime variable_limit_since_3_32 ops db)
    = kept ++ added /\
    Forall2 advances (commands db) kept.
Proof.
  intros db ops.
  assert (Hs : schema_ok db).
  { split; simpl; [|constructor].
    repeat constructor; simpl; intuition discriminate. }
  split; [exact Hs|].
  exact (proj1 (status_never_moves_backward Utc.json Utc.json_dumps
                  Utc.json_loads Utc.strftime variable_limit_since_3_32 db Hs) ops).
Defined.

(** Confirming a command that is still pending. *)
Lemma confirm_executed_idempotent_witness :
  let db :=
    mk_database []
      [mk_command 1 "device-A" "lock" "5" pending "2023-11-14 22:13:20"]
      [] [] [] 0 1 0 0 in
  In 1 (map c_id (commands db)) /\
  exists body db1,
    mark_command_executed 1 db = (Ok body, db1) /\
    (forall c, In c (commands db1) -> c_id c = 1 -> c_status c = executed) /\
    mark_command_executed 1 db1 = (Ok body, db1).
Proof.
  intros db.
  assert (Hin : In 1 (map c_id (commands db))) by (left; reflexivity).
  split; [exact Hin|].
  destruct (confirm_executed_idempotent 1 db Hin)
    as (body & db1 & H1 & _ & _ & _ & Hex & _ & H2).
  exists body, db1. split; [exact H1|]. split; [exact Hex|exact H2].
Defined.

(** The first start of the server, then the first check-in five seconds
    later. *)
Lemma init_db_inserts_demo_device_witness :
  let data := mk_DeviceRegisterRequest "device-A" None None None None in
  devices empty_db = [] /\
  r_device_id data <> "demo-device-12345" /\
  binds_as_optional_integer (r_battery_level data) = true /\
  String.ltb (now_utc Utc.strftime 1700000000000000)
    (now_utc Utc.strftime 1700000005000000) = true /\
  devices (init_db Utc.strftime 1700000000000000 empty_db)
  = [demo_device 1 "2023-11-14 22:13:20"] /\
  exists o1 o2,
    fst (get_devices Utc.strptime 1700000006000000
           (snd (register_device Utc.strftime data 1700000005000000
                   (init_db Utc.strftime 1700000000000000 empty_db))))
    = Ok [o1; o2] /\
    o_device_id o1 = "demo-device-12345" /\
    o_device_id o2 = "device-A".
Proof.
  intros data.
  assert (Hempty : devices empty_db = []) by reflexivity.
  assert (Hneq : r_device_id data <> "demo-device-12345") by discriminate.
  assert (Hfits : binds_as_optional_integer (r_battery_level data) = true)
    by reflexivity.
  assert (Hlt : String.ltb (now_utc Utc.strftime 1700000000000000)
                  (now_utc Utc.strftime 1700000005000000) = true)
    by reflexivity.
  split; [exact Hempty|]. split; [exact Hneq|]. split; [exact Hfits|].
  split; [exact Hlt|].
  destruct (proj1 (init_db_inserts_demo_device Utc.strftime Utc.strptime
                     1700000000000000 empty_db) Hempty)
    as (Hdev & _ & _ & _ & _ & _ & Hfirst).
  split; [exact Hdev|].
  destruct (Hfirst data 1700000005000000 1700000006000000 Hneq Hfits Hlt)
    as (o1 & o2 & Hcall & H1 & H2 & _).
  exists o1, o2. split; [exact Hcall|]. split; [exact H1|exact H2].
Defined.

(** The scenario of three commands: enqueue three for "device-A", deliver
    them, confirm the first.  The delivery returns the three entries; in the
    end the first command is executed and the other two are sent. *)
Example three_commands_scenario :
  let enqueue type data :=
    Enqueue Utc.json (mk_SendCommandRequest Utc.json "device-A" type data)
      1700000001000000 in
  let db0 := init_db Utc.strftime 1700000000000000 empty_db in
  let db3 :=
    dispatch_all Utc.json Utc.json_dumps Utc.json_loads Utc.strftime variable_limit_since_3_32
      [enqueue "lock" 1; enqueue "ring" 2; enqueue "wipe" 3] db0 in
  let delivered := get_pending_commands Utc.json Utc.json_loads variable_limit_since_3_32 "device-A" db3 in
  fst delivered
  = Ok [mk_command_item Utc.json 1 "lock" 1;
        mk_command_item Utc.json 2 "ring" 2;
        mk_command_item Utc.json 3 "wipe" 3] /\
  map c_status (commands (snd delivered)) = [sent; sent; sent] /\
  map c_status (commands (snd (mark_command_executed 1 (snd delivered))))
  = [executed; sent; sent].
Proof. vm_compute. repeat split. Qed.

(** * The further properties at work *)

(** With nothing stored the forwarding number reads as the empty text,
    and reads back what was set. *)
Lemma sms_forward_config_round_trip_witness :
  ~ In "sms_forward_number" (map fst (global_settings empty_db)) /\
  get_sms_forward_config empty_db = (Ok [("forward_number", "")], empty_db) /\
  fst (get_sms_forward_config
         (snd (update_sms_forward_config "+4912345" empty_db)))
  = Ok [("forward_number", "+4912345")].
Proof.
  assert (Hnot : ~ In "sms_forward_number"
                     (map fst (global_settings empty_db)))
    by (intros []).
  split; [exact Hnot|].
  destruct (sms_forward_config_round_trip "+4912345" empty_db)
    as [(db' & Hset & Hget & _) Hunset].
  split; [exact (Hunset Hnot)|].
  rewrite Hset. cbn [snd]. now rewrite Hget.
Defined.

(** The Telegram settings on a store that holds only a forwarding number. *)
Lemma telegram_config_round_trip_witness :
  let db := mk_database [] [] [] [] [("sms_forward_number", "+4912345")]
              0 0 0 0 in
  ~ In "telegram_bot_token" (map fst (global_settings db)) /\
  ~ In "telegram_chat_id" (map fst (global_settings db)) /\
  get_telegram_config db
  = (Ok [("telegram_bot_token", ""); ("telegram_chat_id", "")], db) /\
  fst (get_telegram_config (snd (update_telegram_config "123:abc" "-1001" db)))
  = Ok [("telegram_bot_token", "123:abc"); ("telegram_chat_id", "-1001")].
Proof.
  intros db.
  assert (H1 : ~ In "telegram_bot_token" (map fst (global_settings db))).
  { simpl. intros [H|[]]. discriminate H. }
  assert (H2 : ~ In "telegram_chat_id" (map fst (global_settings db))).
  { simpl. intros [H|[]]. discriminate H. }
  split; [exact H1|]. split; [exact H2|].
  destruct (telegram_config_round_trip "123:abc" "-1001" db)
    as [(db' & Hset & Hget & _) Hunset].
  split; [exact (Hunset H1 H2)|].
  rewrite Hset. cbn [snd]. now rewrite Hget.
Defined.

(** The store after the start, a check-in, a command and an SMS. *)
Lemma reachable_keys_unique_witness :
  let db :=
    serve Utc.json Utc.json_dumps Utc.json_loads Utc.strftime variable_limit_since_3_32
      1700000003000000 (LogSms Utc.json "device-A" "+4912345" "hello")
      (serve Utc.json Utc.json_dumps Utc.json_loads Utc.strftime variable_limit_since_3_32
         1700000002000000
         (SendCommand Utc.json
            (mk_SendCommandRequest Utc.json "device-A" "lock" 5))
         (serve Utc.json Utc.json_dumps Utc.json_loads Utc.strftime variable_limit_since_3_32
            1700000001000000
            (RegisterDevice Utc.json
               (mk_DeviceRegisterRequest "device-A" None None None None))
            (init_db Utc.strftime 1700000000000000 empty_db))) in
  reachable Utc.json Utc.json_dumps Utc.json_loads Utc.strftime variable_limit_since_3_32 db /\
  keys_unique db.
Proof.
  intros db.
  assert (Hr : reachable Utc.json Utc.json_dumps Utc.json_loads Utc.strftime variable_limit_since_3_32 db)
    by (repeat apply reachable_serve; apply reachable_init).
  split; [exact Hr|].
  exact (reachable_keys_unique Utc.json Utc.json_dumps Utc.json_loads
           Utc.strftime variable_limit_since_3_32 db Hr).
Defined.

(** A command is enqueued, its device is deleted with it, and the next
    command still gets a larger id. *)
Lemma command_ids_never_reused_witness :
  let db :=
    serve Utc.json Utc.json_dumps Utc.json_loads Utc.strftime variable_limit_since_3_32
      1700000001000000
      (SendCommand Utc.json
         (mk_SendCommandRequest Utc.json "demo-device-12345" "lock" 5))
      (init_db Utc.strftime 1700000000000000 empty_db) in
  let trace := [(1700000002000000, DeleteDevice Utc.json "demo-device-12345")] in
  reachable Utc.json Utc.json_dumps Utc.json_loads Utc.strftime variable_limit_since_3_32 db /\
  commands
    (serve_all Utc.json Utc.json_dumps Utc.json_loads Utc.strftime variable_limit_since_3_32 trace db)
  = [] /\
  exists c,
    commands
      (snd (send_command Utc.json Utc.json_dumps Utc.strftime
              (mk_SendCommandRequest Utc.json "device-B" "ring" 6)
              1700000003000000
              (serve_all Utc.json Utc.json_dumps Utc.json_loads Utc.strftime variable_limit_since_3_32
                 trace db)))
    = [c] /\
    Forall (fun old => c_id old < c_id c) (commands db).
Proof.
  intros db trace.
  assert (Hr : reachable Utc.json Utc.json_dumps Utc.json_loads Utc.strftime variable_limit_since_3_32 db)
    by (apply reachable_serve, reachable_init).
  split; [exact Hr|]. split; [reflexivity|].
  destruct (command_ids_never_reused Utc.json Utc.json_dumps Utc.json_loads
              Utc.strftime variable_limit_since_3_32 db trace
              (mk_SendCommandRequest Utc.json "device-B" "ring" 6)
              1700000003000000 Hr)
    as (_ & c & Hc & _ & Hold & _).
  exists c. split; [exact Hc|exact Hold].
Defined.

(** Two SMS rows; the second is deleted, then an id that is not stored and
    an id that does not fit 64 bits. *)
Lemma delete_sms_log_removes_one_witness :
  let db :=
    mk_database [] []
      [mk_sms_log 1 "device-A" "+4912345" "hello" "2023-11-14 22:13:20";
       mk_sms_log 2 "device-A" "+4912345" "again" "2023-11-14 22:13:21"]
      [] [] 0 0 2 0 in
  NoDup (map s_id (sms_logs db)) /\
  binds_as_integer 2 = true /\ In 2 (map s_id (sms_logs db)) /\
  binds_as_integer 7 = true /\ ~ In 7 (map s_id (sms_logs db)) /\
  binds_as_integer (2 ^ 63) = false /\
  (exists db',
     delete_sms_log 2 db = (Ok (success "SMS log 2 deleted."), db') /\
     S (List.length (sms_logs db')) = 2%nat) /\
  delete_sms_log 7 db = (HTTPException 404 "SMS log 7 not found.", db) /\
  delete_sms_log (2 ^ 63) db = (Unhandled, db).
Proof.
  intros db.
  assert (Hnd : NoDup (map s_id (sms_logs db))).
  { repeat constructor; simpl; intuition discriminate. }
  assert (Hin : In 2 (map s_id (sms_logs db))) by (right; left; reflexivity).
  assert (Hnot : ~ In 7 (map s_id (sms_logs db))).
  { simpl. intuition discriminate. }
  assert (H2 : binds_as_integer 2 = true) by reflexivity.
  assert (H7 : binds_as_integer 7 = true) by reflexivity.
  assert (Hbig : binds_as_integer (2 ^ 63) = false) by reflexivity.
  split; [exact Hnd|]. split; [exact H2|]. split; [exact Hin|].
  split; [exact H7|]. split; [exact Hnot|]. split; [exact Hbig|].
  destruct (delete_sms_log_removes_one 2 db Hnd) as (Hdel & _ & _).
  destruct (delete_sms_log_removes_one 7 db Hnd) as (_ & Hmiss & _).
  destruct (delete_sms_log_removes_one (2 ^ 63) db Hnd) as (_ & _ & Hover).
  split; [|split; [exact (Hmiss H7 Hnot)|exact (Hover Hbig)]].
  destruct (Hdel H2 Hin) as (db' & Hcall & _ & Hlen & _).
  exists db'. split; [exact Hcall|exact Hlen].
Defined.

(** A second command for a device that never registered: both are
    delivered, the earlier one first. *)
Lemma send_command_then_delivered_witness :
  let db :=
    serve Utc.json Utc.json_dumps Utc.json_loads Utc.strftime
      variable_limit_since_3_32 1700000000500000
      (SendCommand Utc.json (mk_SendCommandRequest Utc.json "device-B" "lock" 5))
      (init_db Utc.strftime 1700000000000000 empty_db) in
  let data := mk_SendCommandRequest Utc.json "device-B" "ring" 6 in
  reachable Utc.json Utc.json_dumps Utc.json_loads Utc.strftime
    variable_limit_since_3_32 db /\
  Z.of_nat (S (List.length (select_commands "device-B" pending db)))
  <= variable_limit_since_3_32 /\
  exists db1 id earlier db2,
    send_command Utc.json Utc.json_dumps Utc.strftime data 1700000001000000 db
    = (Ok (success "Command sent and pending."), db1) /\
    devices db1 = devices db /\
    get_pending_commands Utc.json Utc.json_loads variable_limit_since_3_32
      "device-B" db1
    = (Ok (earlier ++ [mk_command_item Utc.json id "ring" 6]), db2) /\
    List.length earlier = 1%nat.
Proof.
  intros db data.
  assert (Hr : reachable Utc.json Utc.json_dumps Utc.json_loads Utc.strftime
                 variable_limit_since_3_32 db)
    by apply reachable_serve, reachable_init.
  assert (Hlimit : Z.of_nat
                     (S (List.length (select_commands "device-B" pending db)))
                   <= variable_limit_since_3_32)
    by (vm_compute; discriminate).
  split; [exact Hr|]. split; [exact Hlimit|].
  destruct (send_command_then_delivered Utc.json Utc.json_dumps Utc.json_loads
              utc_loads_dumps Utc.strftime variable_limit_since_3_32 data
              1700000001000000 db Hr Hlimit)
    as (db1 & id & earlier & db2 & H1 & Hdev & _ & _ & _ & _ & H2 & Hearlier).
  exists db1, id, earlier, db2.
  split; [exact H1|]. split; [exact Hdev|]. split; [exact H2|].
  symmetry. exact (Forall2_length Hearlier).
Defined.

(** A sent command, then a confirmation of another command and an enqueue:
    the next delivery does not return the sent command. *)
Lemma delivered_at_most_once_witness :
  let c := mk_command 2 "device-A" "ring" "6" sent "2023-11-14 22:13:21" in
  let db :=
    mk_database []
      [mk_command 1 "device-A" "lock" "5" pending "2023-11-14 22:13:20"; c]
      [] [] [] 0 2 0 0 in
  let ops :=
    [ConfirmExecuted Utc.json 1;
     Enqueue Utc.json (mk_SendCommandRequest Utc.json "device-A" "wipe" 7)
       1700000000000000] in
  schema_ok db /\ In c (commands db) /\ c_status c <> pending /\
  fst (get_pending_commands Utc.json Utc.json_loads variable_limit_since_3_32 "device-A"
         (dispatch_all Utc.json Utc.json_dumps Utc.json_loads Utc.strftime variable_limit_since_3_32
            ops db))
  = Ok [mk_command_item Utc.json 3 "wipe" 7] /\
  ~ In (c_id c) (map (i_id Utc.json) [mk_command_item Utc.json 3 "wipe" 7]).
Proof.
  intros c db ops.
  assert (Hs : schema_ok db).
  { split; simpl; [|constructor].
    repeat constructor; simpl; intuition discriminate. }
  assert (Hin : In c (commands db)) by (right; left; reflexivity).
  assert (Hst : c_status c <> pending) by discriminate.
  assert (Hcall : fst (get_pending_commands Utc.json Utc.json_loads variable_limit_since_3_32 "device-A"
                         (dispatch_all Utc.json Utc.json_dumps Utc.json_loads
                            Utc.strftime variable_limit_since_3_32 ops db))
                  = Ok [mk_command_item Utc.json 3 "wipe" 7])
    by reflexivity.
  split; [exact Hs|]. split; [exact Hin|]. split; [exact Hst|].
  split; [exact Hcall|].
  exact (delivered_at_most_once Utc.json Utc.json_dumps Utc.json_loads
           Utc.strftime variable_limit_since_3_32 db c ops "device-A" _ Hs Hin Hst Hcall).
Defined.

(** A delivery for "device-A" with a pending command of "device-B" stored. *)
Lemma delivery_leaves_other_devices_witness :
  let other := mk_command 2 "device-B" "ring" "6" pending "2023-11-14 22:13:21" in
  let db :=
    mk_database []
      [mk_command 1 "device-A" "lock" "5" pending "2023-11-14 22:13:20"; other]
      [] [] [] 0 2 0 0 in
  schema_ok db /\
  In other (commands db) /\ c_device_id other <> "device-A" /\
  In other
    (commands (snd (get_pending_commands Utc.json Utc.json_loads variable_limit_since_3_32 "device-A" db))).
Proof.
  intros other db.
  assert (Hs : schema_ok db).
  { split; simpl; [|constructor].
    repeat constructor; simpl; intuition discriminate. }
  assert (Hin : In other (commands db)) by (right; left; reflexivity).
  assert (Hneq : c_device_id other <> "device-A") by discriminate.
  split; [exact Hs|]. split; [exact Hin|]. split; [exact Hneq|].
  destruct (delivery_leaves_other_devices Utc.json Utc.json_loads variable_limit_since_3_32 "device-A"
              db Hs) as (response & db' & Hcall & Hkeep & _).
  rewrite Hcall. cbn [snd]. exact (Hkeep other Hin Hneq).
Defined.

(** A pending command whose stored payload is not a JSON document of the
    codec. *)
Lemma undecodable_payload_blocks_delivery_witness :
  let db :=
    mk_database []
      [mk_command 1 "device-A" "lock" "5" pending "2023-11-14 22:13:20";
       mk_command 2 "device-A" "ring" "{oops" pending "2023-11-14 22:13:21"]
      [] [] [] 0 2 0 0 in
  Exists (fun c => Utc.json_loads (c_command_data c) = None)
    (select_commands "device-A" pending db) /\
  get_pending_commands Utc.json Utc.json_loads variable_limit_since_3_32 "device-A" db = (Unhandled, db).
Proof.
  intros db.
  assert (H : Exists (fun c => Utc.json_loads (c_command_data c) = None)
                (select_commands "device-A" pending db)).
  { apply Exists_cons_tl, Exists_cons_hd. reflexivity. }
  split; [exact H|].
  exact (undecodable_payload_blocks_delivery Utc.json Utc.json_loads variable_limit_since_3_32
           "device-A" db H).
Defined.



(** * Where the code fails *)

(** C1 (get_pending_commands, two invocations that overlap).  The server
    has started and one command was enqueued for "device-A".  Two polls for
    "device-A" overlap so that the second runs its SELECT before the first
    runs its UPDATE: both return the command with id 1, which is delivered
    twice.  The same two polls one after the other return it once. *)
Theorem overlapping_polls_deliver_twice :
  let db :=
    serve Utc.json Utc.json_dumps Utc.json_loads Utc.strftime
      variable_limit_since_3_32 1700000001000000
      (SendCommand Utc.json (mk_SendCommandRequest Utc.json "device-A" "lock" 5))
      (init_db Utc.strftime 1700000000000000 empty_db) in
  let poll := Polling Utc.json "device-A" in
  let command := mk_command_item Utc.json 1 "lock" 5 in
  fst (run_polls Utc.json Utc.json_loads variable_limit_since_3_32
         [First; Second; First; Second] poll poll db)
  = (Returned Utc.json (Ok [command]), Returned Utc.json (Ok [command])) /\
  fst (run_polls Utc.json Utc.json_loads variable_limit_since_3_32
         [First; First; Second; Second] poll poll db)
  = (Returned Utc.json (Ok [command]), Returned Utc.json (Ok [])).
Proof. vm_compute. split; reflexivity. Qed.

(** C2 (get_pending_commands, more pending commands than the UPDATE can
    bind).  With the variable limit 999 of SQLite before 3.32, and 1000
    commands enqueued for "device-A" after the start of the server: the
    poll ends in the uncaught exception, returns no command, and the store
    is what it was, all 1000 commands still pending. *)
Theorem deliver_pending_fails_above_variable_limit :
  let db :=
    dispatch_all Utc.json Utc.json_dumps Utc.json_loads Utc.strftime
      variable_limit_before_3_32
      (repeat
         (Enqueue Utc.json (mk_SendCommandRequest Utc.json "device-A" "lock" 5)
            1700000001000000) 1000)
      (init_db Utc.strftime 1700000000000000 empty_db) in
  List.length (select_commands "device-A" pending db) = 1000%nat /\
  get_pending_commands Utc.json Utc.json_loads variable_limit_before_3_32
    "device-A" db
  = (Unhandled, db).
Proof. vm_compute. split; reflexivity. Qed.

(** C4 (register_device, a battery level that does not fit 64 bits).  The
    first check-in of "device-A" with battery_level 2^63 ends in the
    uncaught exception of the INSERT and creates no device. *)
Theorem check_in_with_unbindable_battery_level_fails :
  let db := init_db Utc.strftime 1700000000000000 empty_db in
  let data :=
    mk_DeviceRegisterRequest "device-A" (Some "Pixel") (Some "Android 14")
      None (Some (2 ^ 63)) in
  count_devices "device-A" db = 0 /\
  register_device Utc.strftime data 1700000005000000 db = (Unhandled, db).
Proof. vm_compute. split; reflexivity. Qed.

(** C9 (get_devices, a last_seen that is not a text).  A last_seen text
    that [strptime] rejects gives is_online = false for its device and the
    loop goes on; a last_seen that the column holds as the integer 12345
    ends the loop with the exception that [except ValueError] does not
    catch, and there is no listing. *)
Theorem integer_last_seen_ends_the_listing :
  presence_loop Utc.strptime 1700000000000000
    [StoredText "2023-11-14 22:13:20"; StoredText "12:34"]
  = Some [true; false] /\
  presence_loop Utc.strptime 1700000000000000
    [StoredText "2023-11-14 22:13:20"; StoredInteger 12345]
  = None.
Proof. vm_compute. split; reflexivity. Qed.
